(** * no-unsafe-any: a shallow embedding of the rule and its dispatch

    The rule of [packages/eslint-plugin/src/rules/no-unsafe-any.ts] is a
    table of listeners, each a selector string and a handler.  The host
    walks the syntax tree in pre-order and, on entering a node, runs every
    handler whose selector matches the node; a handler consults the type
    checker and calls [context.report].

    The development follows that shape:
    - the checker's answer for a node ([ts.Type_]) and the three
      predicates of the rule over it;
    - the syntax tree (the part of TSESTree the listeners can see);
    - the selector language of the listener keys and its matcher;
    - a state-and-exception monad for handlers: the state is the list of
      reports made so far, the exception is a JavaScript throw;
    - the handlers, the listener table, the traversal;
    - the properties. *)

From Stdlib Require Import List String ZArith Bool Arith Lia Permutation.
Import ListNotations.
Open Scope string_scope.
Open Scope list_scope.

Set Warnings "-register-all".

(** ** The type checker, as the rule consumes it *)

Module ts.

(** Members of [ts.TypeFlags]; the rule tests [Any] alone. *)
Definition TypeFlags_Any : Z := 1.
Definition TypeFlags_Number : Z := 8.
Definition TypeFlags_Object : Z := 524288.

(** What the rule reads of a [ts.Type]: its flags (those of the parts of
    a union merged, as [util.isTypeFlagSet] does), whether
    [checker.isArrayType] and tsutils' [isTypeReference] hold of it, and
    the flags of its first type argument, which the rule reads only
    behind the two tests (an array type reference always has one). *)
Record Type_ : Type := mkType {
  flags : Z;
  isArrayType : bool;
  isTypeReference : bool;
  typeArgument0 : Z;
}.

End ts.

Module util.

(** Modelled from the spec: [util.isTypeFlagSet(type, flagsToCheck)] is
    not in the source tree; section 4.1 has [isDynamic] hold when the
    resolved type is the dynamic one: some flag of [flagsToCheck] is among
    the flags of the type. *)
Definition isTypeFlagSet (typeFlags flagsToCheck : Z) : bool :=
  negb (Z.land typeFlags flagsToCheck =? 0)%Z.

End util.

(** ** The syntax tree *)

(** The keyword of a [VariableDeclaration]. *)
Inductive declarationKind : Type := Kvar | Klet | Kconst.

Definition kindText (k : declarationKind) : string :=
  match k with Kvar => "var" | Klet => "let" | Kconst => "const" end.

(** Type nodes.  [TSTypeReference] carries the source text of the whole
    reference, which is what [sourceCode.getText(node)] returns for it;
    its [typeName] and the [TSTypeParameterInstantiation] wrapper, which no
    listener can match and no handler reads, are not represented. *)
Inductive typeNode : Type :=
| TSAnyKeyword
| TSUnknownKeyword
| TSNumberKeyword
| TSStringKeyword
| TSBooleanKeyword
| TSArrayType (elementType : typeNode)
| TSTypeReference (text : string) (typeParameters : list typeNode).

Inductive literalValue : Type :=
| LitNull
| LitBoolean (b : bool)
| LitNumber (n : Z)
| LitString (s : string).

(** Patterns, expressions and statements.  An [Identifier] is both an
    expression and a pattern in ESTree; here it has one constructor in each
    type.  [typeAnnotation] holds the type inside the [TSTypeAnnotation]
    node.  The elements of an [ArrayPattern] are optional: an elision
    ([const [, x] = v]) is a [null] element. *)
Inductive pattern : Type :=
| PIdentifier (name : string) (typeAnnotation : option typeNode)
| ObjectPattern (properties : list pattern) (typeAnnotation : option typeNode)
| ArrayPattern (elements : list (option pattern)) (typeAnnotation : option typeNode)
| AssignmentPattern (left : pattern) (right : expr)
| RestElement (argument : pattern)
| Property (key : expr) (value : pattern)
| PExpression (target : expr)

with expr : Type :=
| Identifier (name : string)
| Literal (value : literalValue)
| ArrayExpression (elements : list expr)
| MemberExpression (object : expr) (property : expr)
| CallExpression (callee : expr) (arguments : list expr)
| ArrowFunctionExpression (params : list pattern) (body : expr + list stmt)
| AssignmentExpression (operator : string) (left : pattern) (right : expr)
| UpdateExpression (operator : string) (argument : expr)
| ConditionalExpression (test consequent alternate : expr)
| BinaryExpression (operator : string) (left right : expr)
| TSAsExpression (expression : expr) (typeAnnotation : typeNode)

with stmt : Type :=
| ExpressionStatement (expression : expr)
| VariableDeclaration (kind : declarationKind) (declarations : list declarator)
| FunctionDeclaration (id : string) (params : list pattern) (body : list stmt)
| ReturnStatement (argument : option expr)
| IfStatement (test : expr) (consequent : stmt) (alternate : option stmt)
| WhileStatement (test : expr) (body : stmt)
| DoWhileStatement (body : stmt) (test : expr)
| ForOfStatement (left : stmt + pattern) (right : expr) (body : stmt)
| ForInStatement (left : stmt + pattern) (right : expr) (body : stmt)
| SwitchStatement (discriminant : expr) (cases : list switchCase)
| BlockStatement (body : list stmt)

with declarator : Type :=
| VariableDeclarator (id : pattern) (init : option expr)

with switchCase : Type :=
| SwitchCase (test : option expr) (consequent : list stmt).

(** A node of any type: what a listener receives. *)
Inductive anyNode : Type :=
| NProgram (body : list stmt)
| NStmt (s : stmt)
| NExpr (e : expr)
| NPattern (p : pattern)
| NDeclarator (d : declarator)
| NSwitchCase (c : switchCase)
| NTypeAnnotation (t : typeNode)
| NType (t : typeNode).

(** [node.type]. *)
Definition typeNodeType (t : typeNode) : string :=
  match t with
  | TSAnyKeyword => "TSAnyKeyword"
  | TSUnknownKeyword => "TSUnknownKeyword"
  | TSNumberKeyword => "TSNumberKeyword"
  | TSStringKeyword => "TSStringKeyword"
  | TSBooleanKeyword => "TSBooleanKeyword"
  | TSArrayType _ => "TSArrayType"
  | TSTypeReference _ _ => "TSTypeReference"
  end.

Definition exprType (e : expr) : string :=
  match e with
  | Identifier _ => "Identifier"
  | Literal _ => "Literal"
  | ArrayExpression _ => "ArrayExpression"
  | MemberExpression _ _ => "MemberExpression"
  | CallExpression _ _ => "CallExpression"
  | ArrowFunctionExpression _ _ => "ArrowFunctionExpression"
  | AssignmentExpression _ _ _ => "AssignmentExpression"
  | UpdateExpression _ _ => "UpdateExpression"
  | ConditionalExpression _ _ _ => "ConditionalExpression"
  | BinaryExpression _ _ _ => "BinaryExpression"
  | TSAsExpression _ _ => "TSAsExpression"
  end.

Definition patternType (p : pattern) : string :=
  match p with
  | PIdentifier _ _ => "Identifier"
  | ObjectPattern _ _ => "ObjectPattern"
  | ArrayPattern _ _ => "ArrayPattern"
  | AssignmentPattern _ _ => "AssignmentPattern"
  | RestElement _ => "RestElement"
  | Property _ _ => "Property"
  | PExpression e => exprType e
  end.

Definition stmtType (s : stmt) : string :=
  match s with
  | ExpressionStatement _ => "ExpressionStatement"
  | VariableDeclaration _ _ => "VariableDeclaration"
  | FunctionDeclaration _ _ _ => "FunctionDeclaration"
  | ReturnStatement _ => "ReturnStatement"
  | IfStatement _ _ _ => "IfStatement"
  | WhileStatement _ _ => "WhileStatement"
  | DoWhileStatement _ _ => "DoWhileStatement"
  | ForOfStatement _ _ _ => "ForOfStatement"
  | ForInStatement _ _ _ => "ForInStatement"
  | SwitchStatement _ _ => "SwitchStatement"
  | BlockStatement _ => "BlockStatement"
  end.

Definition nodeType (n : anyNode) : string :=
  match n with
  | NProgram _ => "Program"
  | NStmt s => stmtType s
  | NExpr e => exprType e
  | NPattern p => patternType p
  | NDeclarator _ => "VariableDeclarator"
  | NSwitchCase _ => "SwitchCase"
  | NTypeAnnotation _ => "TSTypeAnnotation"
  | NType t => typeNodeType t
  end.

(** ** Positions, cursors and reports *)

(** A node is identified by its position: the steps from the root to it,
    innermost first.  A step is the key of the parent under which the node
    sits and, where the key holds an array, the index in it (0 otherwise).
    Node objects are compared by identity in the source
    ([esTreeNodeToTSNodeMap] is keyed by them); positions play that role. *)
Definition step : Type := (string * nat)%type.
Definition path : Type := list step.

(** A node in its context: the node, where it is, and [node.parent],
    [node.parent.parent], ... *)
Record cursor : Type := mkCursor {
  focus : anyNode;
  at_ : path;
  ancestors : list anyNode;
}.

(** [node.parent]: absent at the root. *)
Definition parent (c : cursor) : option cursor :=
  match ancestors c with
  | [] => None
  | n :: rest => Some (mkCursor n (tl (at_ c)) rest)
  end.

(** The key of the parent that holds the node. *)
Definition fieldOf (c : cursor) : option string :=
  match at_ c with
  | [] => None
  | (key, _) :: _ => Some key
  end.

(** The position of [node[key]] (or [node[key][i]]). *)
Definition childPath (c : cursor) (key : string) (i : nat) : path :=
  (key, i) :: at_ c.

(** The union [MessageIds] of the source. *)
Inductive MessageIds : Type :=
| typeReferenceResolvesToAny
| variableDeclarationInitialisedToAnyWithoutAnnotation
| variableDeclarationInitialisedToAnyWithAnnotation
| patternVariableDeclarationInitialisedToAny
| letVariableInitialisedToNullishAndNoAnnotation
| letVariableWithNoInitialAndNoAnnotation
| loopVariableInitialisedToAny
| returnAny
| passedArgumentIsAny
| assignmentValueIsAny
| updateExpressionIsAny
| booleanTestIsAny
| switchDiscriminantIsAny
| switchCaseTestIsAny.

(** Equality of message identifiers. *)
Definition MessageIds_eqb (a b : MessageIds) : bool :=
  match a, b with
  | typeReferenceResolvesToAny, typeReferenceResolvesToAny
  | variableDeclarationInitialisedToAnyWithoutAnnotation,
    variableDeclarationInitialisedToAnyWithoutAnnotation
  | variableDeclarationInitialisedToAnyWithAnnotation,
    variableDeclarationInitialisedToAnyWithAnnotation
  | patternVariableDeclarationInitialisedToAny,
    patternVariableDeclarationInitialisedToAny
  | letVariableInitialisedToNullishAndNoAnnotation,
    letVariableInitialisedToNullishAndNoAnnotation
  | letVariableWithNoInitialAndNoAnnotation,
    letVariableWithNoInitialAndNoAnnotation
  | loopVariableInitialisedToAny, loopVariableInitialisedToAny
  | returnAny, returnAny
  | passedArgumentIsAny, passedArgumentIsAny
  | assignmentValueIsAny, assignmentValueIsAny
  | updateExpressionIsAny, updateExpressionIsAny
  | booleanTestIsAny, booleanTestIsAny
  | switchDiscriminantIsAny, switchDiscriminantIsAny
  | switchCaseTestIsAny, switchCaseTestIsAny => true
  | _, _ => false
  end.

(** The argument of [context.report]: the node the report is anchored at,
    the message and the interpolation data.  A data value is what the
    JavaScript expression evaluated to: [None] is [undefined]. *)
Record diagnostic : Type := mkDiagnostic {
  node : path;
  messageId : MessageIds;
  data : list (string * option string);
}.

(** ** Handlers: reports so far, and throws *)

(** [IllTyped] is not a JavaScript throw: it marks a handler run on a node
    outside the type its parameter declares (the [as] casts of the source).
    [enterNode_WellTyped] shows that the selectors rule it out. *)
Inductive error : Type :=
| TypeError         (* a property read of null or undefined *)
| NullThrows        (* util.nullThrows on an absent value *)
| IllTyped.

Inductive result (A : Type) : Type :=
| Ok (a : A)
| Throw (e : error).
Arguments Ok {A} a.
Arguments Throw {A} e.

(** A handler runs against the reports made so far ([context.report]
    appends to them) and either returns or throws. *)
Definition M (A : Type) : Type :=
  list diagnostic -> list diagnostic * result A.

Definition ret {A : Type} (a : A) : M A := fun s => (s, Ok a).

Definition bind {A B : Type} (m : M A) (f : A -> M B) : M B :=
  fun s =>
    match m s with
    | (s', Ok a) => f a s'
    | (s', Throw e) => (s', Throw e)
    end.

Definition throw {A : Type} (e : error) : M A := fun s => (s, Throw e).

Definition report (d : diagnostic) : M unit := fun s => (s ++ [d], Ok tt).

Declare Scope handler_scope.
Delimit Scope handler_scope with handler.
Notation "x <- m ;; k" := (bind m (fun x => k))
  (at level 61, m at next level, right associativity) : handler_scope.
Notation "m ;; k" := (bind m (fun _ => k))
  (at level 61, right associativity) : handler_scope.
Open Scope handler_scope.

Definition when (b : bool) (m : M unit) : M unit :=
  if b then m else ret tt.

(** [array.forEach((x, i) => ...)] and [for (const x of array)]. *)
Section ForEach.
Context {A : Type} (f : nat -> A -> M unit).

Fixpoint forEachFrom (i : nat) (l : list A) : M unit :=
  match l with
  | [] => ret tt
  | x :: rest => f i x ;; forEachFrom (S i) rest
  end.

Definition forEach (l : list A) : M unit := forEachFrom 0 l.
End ForEach.

(** The reports a computation makes when started from none, and how it
    ends. *)
Definition emitted {A : Type} (m : M A) : list diagnostic := fst (m []).
Definition outcome {A : Type} (m : M A) : result A := snd (m []).

(** ** Selectors

    A listener key is a selector of esquery, the query language the host
    matches listeners with.  The part of it the rule uses: a node type
    ([identifier]), the key of the parent that holds the node ([field],
    written [.key]), a test on a property ([attribute], written [[...]]),
    [:not(...)], [:matches(...)] (also what a top-level comma makes), a
    sequence of those on one node ([compound]) and the child combinator
    [>].

    An identifier ends at a dot: the grammar reads [A.b] as the node type
    [A] followed by the field [.b], both on the same node. *)

(** The value of a property, as far as a selector can tell values apart. *)
Inductive propertyValue : Type :=
| VUndefined
| VNull
| VBoolean (b : bool)
| VNumber (n : Z)
| VString (s : string)
| VNode
| VArray (length : nat).

Definition optionValue {A : Type} (o : option A) : propertyValue :=
  match o with Some _ => VNode | None => VNull end.

Definition optionalValue {A : Type} (o : option A) : propertyValue :=
  match o with Some _ => VNode | None => VUndefined end.

Definition arrayValue {A : Type} (l : list A) : propertyValue :=
  VArray (List.length l).

Definition typeNodeProperty (t : typeNode) (key : string) : propertyValue :=
  match t with
  | TSArrayType _ => if key =? "elementType" then VNode else VUndefined
  | TSTypeReference _ ps =>
      if key =? "typeName" then VNode
      else if key =? "typeParameters" then
        match ps with [] => VUndefined | _ => VNode end
      else VUndefined
  | _ => VUndefined
  end.

Definition exprProperty (e : expr) (key : string) : propertyValue :=
  match e with
  | Identifier n => if key =? "name" then VString n else VUndefined
  | Literal v =>
      if key =? "value" then
        match v with
        | LitNull => VNull
        | LitBoolean b => VBoolean b
        | LitNumber n => VNumber n
        | LitString s => VString s
        end
      else VUndefined
  | ArrayExpression els =>
      if key =? "elements" then arrayValue els else VUndefined
  | MemberExpression _ _ =>
      if (key =? "object") || (key =? "property") then VNode else VUndefined
  | CallExpression _ args =>
      if key =? "callee" then VNode
      else if key =? "arguments" then arrayValue args
      else VUndefined
  | ArrowFunctionExpression ps _ =>
      if key =? "params" then arrayValue ps
      else if key =? "body" then VNode
      else VUndefined
  | AssignmentExpression op _ _ =>
      if key =? "operator" then VString op
      else if (key =? "left") || (key =? "right") then VNode
      else VUndefined
  | UpdateExpression op _ =>
      if key =? "operator" then VString op
      else if key =? "argument" then VNode
      else VUndefined
  | ConditionalExpression _ _ _ =>
      if (key =? "test") || (key =? "consequent") || (key =? "alternate")
      then VNode else VUndefined
  | BinaryExpression op _ _ =>
      if key =? "operator" then VString op
      else if (key =? "left") || (key =? "right") then VNode
      else VUndefined
  | TSAsExpression _ _ =>
      if (key =? "expression") || (key =? "typeAnnotation") then VNode
      else VUndefined
  end.

Definition patternProperty (p : pattern) (key : string) : propertyValue :=
  match p with
  | PIdentifier n ann =>
      if key =? "name" then VString n
      else if key =? "typeAnnotation" then optionalValue ann
      else VUndefined
  | ObjectPattern ps ann =>
      if key =? "properties" then arrayValue ps
      else if key =? "typeAnnotation" then optionalValue ann
      else VUndefined
  | ArrayPattern els ann =>
      if key =? "elements" then arrayValue els
      else if key =? "typeAnnotation" then optionalValue ann
      else VUndefined
  | AssignmentPattern _ _ =>
      if (key =? "left") || (key =? "right") then VNode else VUndefined
  | RestElement _ => if key =? "argument" then VNode else VUndefined
  | Property _ _ =>
      if (key =? "key") || (key =? "value") then VNode else VUndefined
  | PExpression e => exprProperty e key
  end.

Definition stmtProperty (s : stmt) (key : string) : propertyValue :=
  match s with
  | ExpressionStatement _ =>
      if key =? "expression" then VNode else VUndefined
  | VariableDeclaration k ds =>
      if key =? "kind" then VString (kindText k)
      else if key =? "declarations" then arrayValue ds
      else VUndefined
  | FunctionDeclaration _ ps _ =>
      if key =? "params" then arrayValue ps
      else if (key =? "id") || (key =? "body") then VNode
      else VUndefined
  | ReturnStatement a =>
      if key =? "argument" then optionValue a else VUndefined
  | IfStatement _ _ alt =>
      if (key =? "test") || (key =? "consequent") then VNode
      else if key =? "alternate" then optionValue alt
      else VUndefined
  | WhileStatement _ _ | DoWhileStatement _ _ =>
      if (key =? "test") || (key =? "body") then VNode else VUndefined
  | ForOfStatement _ _ _ | ForInStatement _ _ _ =>
      if (key =? "left") || (key =? "right") || (key =? "body") then VNode
      else VUndefined
  | SwitchStatement _ cs =>
      if key =? "discriminant" then VNode
      else if key =? "cases" then arrayValue cs
      else VUndefined
  | BlockStatement b => if key =? "body" then arrayValue b else VUndefined
  end.

(** [node[key]]. *)
Definition property (n : anyNode) (key : string) : propertyValue :=
  if key =? "type" then VString (nodeType n)
  else
    match n with
    | NProgram b => if key =? "body" then arrayValue b else VUndefined
    | NStmt s => stmtProperty s key
    | NExpr e => exprProperty e key
    | NPattern p => patternProperty p key
    | NDeclarator (VariableDeclarator _ i) =>
        if key =? "id" then VNode
        else if key =? "init" then optionValue i
        else VUndefined
    | NSwitchCase (SwitchCase t cs) =>
        if key =? "test" then optionValue t
        else if key =? "consequent" then arrayValue cs
        else VUndefined
    | NTypeAnnotation _ =>
        if key =? "typeAnnotation" then VNode else VUndefined
    | NType t => typeNodeProperty t key
    end.

(** esquery's [getPath(node, name)], on the name split at its dots: one
    key, or a key that holds an array followed by [length]. *)
Definition getPath (n : anyNode) (name : list string) : propertyValue :=
  match name with
  | [key] => property n key
  | [key; next] =>
      match property n key with
      | VArray len => if next =? "length" then VNumber (Z.of_nat len)
                      else VUndefined
      | VString s => if next =? "length"
                     then VNumber (Z.of_nat (String.length s))
                     else VUndefined
      | VNull => VNull
      | _ => VUndefined
      end
  | _ => VUndefined
  end.

Inductive literal : Type :=
| LString (s : string)
| LNumber (n : Z).

(** The operators of an attribute selector that the rule uses: none
    ([[name]]), [=] and [>] against a literal. *)
Inductive attributeTest : Type :=
| Exists
| Equals (value : literal)
| GreaterThan (value : Z).

(** [[name]] holds when the value is neither [null] nor [undefined];
    [[name = v]] compares the two printed; [[name > v]] compares numbers.
    Only the printing of a string against a string and of a number against
    a number is modelled: the rule makes no other comparison. *)
Definition attributeHolds (t : attributeTest) (v : propertyValue) : bool :=
  match t, v with
  | Exists, (VUndefined | VNull) => false
  | Exists, _ => true
  | Equals (LString s), VString s' => s' =? s
  | Equals (LNumber n), VNumber n' => (n' =? n)%Z
  | Equals _, _ => false
  | GreaterThan n, VNumber n' => (n <? n')%Z
  | GreaterThan _, _ => false
  end.

Inductive selector : Type :=
| identifier (value : string)
| field (name : string)
| attribute (name : list string) (test : attributeTest)
| not_ (selectors : list selector)
| matches_ (selectors : list selector)
| compound (selectors : list selector)
| child (left right : selector).

(** esquery's [matches(node, selector, ancestry)].  A node with no parent
    matches no [child] selector. *)
Fixpoint matches (sel : selector) (c : cursor) {struct sel} : bool :=
  match sel with
  | identifier value => nodeType (focus c) =? value
  | field name =>
      match fieldOf c with
      | Some key => key =? name
      | None => false
      end
  | attribute name test => attributeHolds test (getPath (focus c) name)
  | not_ selectors => negb (existsb (fun s => matches s c) selectors)
  | matches_ selectors => existsb (fun s => matches s c) selectors
  | compound selectors => forallb (fun s => matches s c) selectors
  | child l r =>
      matches r c &&
      match parent c with
      | Some p => matches l p
      | None => false
      end
  end.

(** ** Helpers of [../util] that the handlers call *)

(** Modelled from the spec: [util.isNullLiteral] is not in the source
    tree; section 4.5 has it hold of an initializer that "is literally
    null". *)
Definition isNullLiteral (init : option expr) : bool :=
  match init with
  | Some (Literal LitNull) => true
  | _ => false
  end.

(** Modelled from the spec: [util.isUndefinedIdentifier] is not in the
    source tree; section 4.5 has it hold of an initializer that is "the
    undefined identifier". *)
Definition isUndefinedIdentifier (init : option expr) : bool :=
  match init with
  | Some (Identifier name) => name =? "undefined"
  | _ => false
  end.

(** Modelled from the spec: [util.nullThrows] is not in the source tree;
    section 7 has an absent value abort the traversal. *)
Definition nullThrows {A : Type} (value : option A) : M A :=
  match value with
  | Some v => ret v
  | None => throw NullThrows
  end.

(** [node.typeAnnotation] of a binding name. *)
Definition typeAnnotationOf (p : pattern) : option typeNode :=
  match p with
  | PIdentifier _ ann | ObjectPattern _ ann | ArrayPattern _ ann => ann
  | _ => None
  end.

(** An expression in pattern position is the expression node itself. *)
Definition asExpr (n : anyNode) : option expr :=
  match n with
  | NExpr e | NPattern (PExpression e) => Some e
  | _ => None
  end.

(** ** The rule: [create(context, [{ allowVariableAnnotationFromAny }])] *)

Section Create.

(** [checker.getTypeAtLocation(esTreeNodeToTSNodeMap.get(node))]: the
    type the checker resolves at a node. *)
Variable getTypeAtLocation : path -> ts.Type_.

(** The option of the rule. *)
Variable allowVariableAnnotationFromAny : bool.

(** true if the type is [any]. *)
Definition isAnyType (tsNode : path) : bool :=
  let type := getTypeAtLocation tsNode in
  util.isTypeFlagSet (ts.flags type) ts.TypeFlags_Any.

(** true if the type is [any[]] or [readonly any[]]. *)
Definition isAnyArrayType (tsNode : path) : bool :=
  let type := getTypeAtLocation tsNode in
  ts.isArrayType type &&
  ts.isTypeReference type &&
  util.isTypeFlagSet (ts.typeArgument0 type) ts.TypeFlags_Any.

Definition isAnyOrAnyArrayType (tsNode : path) : bool :=
  isAnyType tsNode || isAnyArrayType tsNode.

Definition reportVariableDeclarationInitialisedToAny (node : cursor)
  : M unit :=
  match focus node with
  | NDeclarator (VariableDeclarator id _) =>
      match typeAnnotationOf id with
      | None =>
          report (mkDiagnostic (at_ node)
            variableDeclarationInitialisedToAnyWithoutAnnotation [])
      | Some annotation =>
          (* there is a type annotation *)
          if allowVariableAnnotationFromAny then ret tt
          else
            match annotation with
            | TSUnknownKeyword => ret tt
            | _ =>
                report (mkDiagnostic (at_ node)
                  variableDeclarationInitialisedToAnyWithAnnotation [])
            end
      end
  | _ => throw IllTyped
  end.

(** [node] sits at [here]. *)
Fixpoint checkDestructuringPattern (here : path) (node : pattern)
  {struct node} : M unit :=
  match node with
  | ObjectPattern properties _ =>
      forEach (fun i prop =>
        match prop with
        | Property _ value =>
            checkDestructuringPattern
              (("value", 0) :: ("properties", i) :: here) value
        | _ => checkDestructuringPattern (("properties", i) :: here) prop
        end) properties
  | ArrayPattern elements _ =>
      forEach (fun i el =>
        match el with
        | Some el => checkDestructuringPattern (("elements", i) :: here) el
        | None => throw TypeError   (* [node.type] of [null] *)
        end) elements
  | _ =>
      let tsNode := here in
      when (isAnyOrAnyArrayType tsNode)
        (report (mkDiagnostic here
           patternVariableDeclarationInitialisedToAny []))
  end.

(** [(node.parent as TSESTree.VariableDeclaration).kind]. *)
Definition parentKind (node : cursor) : option declarationKind :=
  match parent node with
  | Some p =>
      match focus p with
      | NStmt (VariableDeclaration kind _) => Some kind
      | _ => None
      end
  | None => None
  end.

(** *** The listeners, in the order of the source *)

Definition on_TSTypeReference (node : cursor) : M unit :=
  let tsNode := at_ node in
  if negb (isAnyType tsNode) then ret tt
  else
    match focus node with
    | NType (TSTypeReference typeName _) =>
        report (mkDiagnostic (at_ node) typeReferenceResolvesToAny
                  [("typeName", Some typeName)])
    | _ => throw IllTyped
    end.

Definition on_letDeclaratorWithoutInit (node : cursor) : M unit :=
  match focus node with
  | NDeclarator (VariableDeclarator id _) =>
      match typeAnnotationOf id with
      | Some _ => ret tt
      | None =>
          match parentKind node with
          | Some kind =>
              report (mkDiagnostic (at_ node)
                letVariableWithNoInitialAndNoAnnotation
                [("kind", Some (kindText kind))])
          | None => throw IllTyped
          end
      end
  | _ => throw IllTyped
  end.

Definition on_letDeclaratorWithInit (node : cursor) : M unit :=
  match focus node with
  | NDeclarator (VariableDeclarator id init) =>
      match typeAnnotationOf id with
      | Some _ => ret tt
      | None =>
          match parentKind node with
          | Some kind =>
              when (isNullLiteral init || isUndefinedIdentifier init)
                (report (mkDiagnostic (at_ node)
                   letVariableInitialisedToNullishAndNoAnnotation
                   [("kind", Some (kindText kind))]))
          | None => throw IllTyped
          end
      end
  | _ => throw IllTyped
  end.

(** [const x = ...;] *)
Definition on_declaratorIdentifier (node : cursor) : M unit :=
  match parent node with
  | Some parent_ =>
      match focus parent_ with
      | NDeclarator (VariableDeclarator _ init) =>
          match init with
          | None => ret tt
          | Some _ =>
              let tsNode := childPath parent_ "init" 0 in
              if negb (isAnyType tsNode) && negb (isAnyArrayType tsNode)
              then ret tt
              else
                (* the variable is initialised to any | any[]... *)
                reportVariableDeclarationInitialisedToAny parent_
          end
      | _ => throw IllTyped
      end
  | None => throw IllTyped
  end.

(** [const x = [];] *)
Definition on_declaratorEmptyArray (node : cursor) : M unit :=
  match parent node with
  | Some parent_ =>
      match focus parent_ with
      | NDeclarator (VariableDeclarator id _) =>
          match typeAnnotationOf id with
          | Some _ => ret tt
          | None =>
              report (mkDiagnostic (at_ parent_)
                variableDeclarationInitialisedToAnyWithoutAnnotation [])
          end
      | _ => throw IllTyped
      end
  | None => throw IllTyped
  end.

(** [const { x } = ...;] and [const [x] = ...;]: the two handlers have
    the same body. *)
Definition on_declaratorPattern (node : cursor) : M unit :=
  match parent node with
  | Some parent_ =>
      match focus parent_ with
      | NDeclarator (VariableDeclarator _ init) =>
          match init with
          | None => ret tt
          | Some _ =>
              let tsNode := childPath parent_ "init" 0 in
              if isAnyOrAnyArrayType tsNode then
                (* the entire init value is any, so report the entire
                   declaration *)
                reportVariableDeclarationInitialisedToAny parent_
              else
                match focus node with
                | NPattern p => checkDestructuringPattern (at_ node) p
                | _ => throw IllTyped
                end
          end
      | _ => throw IllTyped
      end
  | None => throw IllTyped
  end.

Definition on_forOfDeclarator (node : cursor) : M unit :=
  let tsNode := at_ node in
  when (isAnyOrAnyArrayType tsNode)
    (report (mkDiagnostic (at_ node) loopVariableInitialisedToAny [])).

Definition on_ReturnStatement (node : cursor) : M unit :=
  match focus node with
  | NStmt (ReturnStatement argument) =>
      _ <- nullThrows argument ;;
      let tsNode := childPath node "argument" 0 in
      when (isAnyOrAnyArrayType tsNode)
        (report (mkDiagnostic (at_ node) returnAny []))
  | _ => throw IllTyped
  end.

(** [() => 1] *)
Definition on_arrowBody (node : cursor) : M unit :=
  let tsNode := at_ node in
  when (isAnyOrAnyArrayType tsNode)
    (report (mkDiagnostic (at_ node) returnAny [])).

Definition on_CallExpression (node : cursor) : M unit :=
  match asExpr (focus node) with
  | Some (CallExpression _ arguments) =>
      forEach (fun i _ =>
        let argument := childPath node "arguments" i in
        let tsNode := argument in
        when (isAnyOrAnyArrayType tsNode)
          (report (mkDiagnostic argument passedArgumentIsAny [])))
        arguments
  | _ => throw IllTyped
  end.

Definition on_AssignmentExpression (node : cursor) : M unit :=
  match asExpr (focus node) with
  | Some (AssignmentExpression _ _ _) =>
      let tsNode := childPath node "right" 0 in
      when (isAnyOrAnyArrayType tsNode)
        (report (mkDiagnostic (at_ node) assignmentValueIsAny []))
  | _ => throw IllTyped
  end.

Definition on_UpdateExpression (node : cursor) : M unit :=
  match asExpr (focus node) with
  | Some (UpdateExpression _ _) =>
      let tsNode := childPath node "argument" 0 in
      when (isAnyType tsNode)
        (report (mkDiagnostic (at_ node) updateExpressionIsAny []))
  | _ => throw IllTyped
  end.

(** The object literal [typeToText], read at a key. *)
Definition typeToText (type : string) : option string :=
  if type =? "IfStatement" then Some "if"
  else if type =? "WhileStatement" then Some "while"
  else if type =? "DoWhileStatement" then Some "do while"
  else if type =? "ConditionalExpression" then Some "ternary"
  else None.

(** Whether the node has a [test] to read. *)
Definition hasTest (n : anyNode) : bool :=
  match n with
  | NStmt (IfStatement _ _ _)
  | NStmt (WhileStatement _ _)
  | NStmt (DoWhileStatement _ _) => true
  | _ =>
      match asExpr n with
      | Some (ConditionalExpression _ _ _) => true
      | _ => false
      end
  end.

Definition on_booleanTest (node : cursor) : M unit :=
  if hasTest (focus node) then
    let test := childPath node "test" 0 in
    let tsNode := test in
    when (isAnyOrAnyArrayType tsNode)
      (report (mkDiagnostic test booleanTestIsAny
                 [("kind", typeToText (nodeType (focus node)))]))
  else throw IllTyped.

Definition on_SwitchStatement (node : cursor) : M unit :=
  match focus node with
  | NStmt (SwitchStatement _ _) =>
      let discriminant := childPath node "discriminant" 0 in
      let tsNode := discriminant in
      when (isAnyOrAnyArrayType tsNode)
        (report (mkDiagnostic discriminant switchDiscriminantIsAny []))
  | _ => throw IllTyped
  end.

Definition on_SwitchCase (node : cursor) : M unit :=
  match focus node with
  | NSwitchCase (SwitchCase test _) =>
      _ <- nullThrows test ;;
      let tsNode := childPath node "test" 0 in
      when (isAnyOrAnyArrayType tsNode)
        (report (mkDiagnostic (at_ node) switchCaseTestIsAny []))
  | _ => throw IllTyped
  end.

(** *** The listener table *)

Definition declarationIsLetOrVar : selector :=
  compound [identifier "VariableDeclaration";
            matches_ [attribute ["kind"] (Equals (LString "let"));
                      attribute ["kind"] (Equals (LString "var"))]].

Definition declaratorWithInit : selector :=
  compound [identifier "VariableDeclarator"; attribute ["init"] Exists].

(** [TSTypeReference] *)
Definition sel_TSTypeReference : selector :=
  identifier "TSTypeReference".

(** [VariableDeclaration:matches([kind = "let"], [kind = "var"]) >
    VariableDeclarator:not([init])] *)
Definition sel_letDeclaratorWithoutInit : selector :=
  child declarationIsLetOrVar
        (compound [identifier "VariableDeclarator";
                   not_ [attribute ["init"] Exists]]).

(** [VariableDeclaration:matches([kind = "let"], [kind = "var"]) >
    VariableDeclarator[init]] *)
Definition sel_letDeclaratorWithInit : selector :=
  child declarationIsLetOrVar declaratorWithInit.

(** [VariableDeclaration > VariableDeclarator[init] > Identifier.id] *)
Definition sel_declaratorIdentifier : selector :=
  child (child (identifier "VariableDeclaration") declaratorWithInit)
        (compound [identifier "Identifier"; field "id"]).

(** [VariableDeclaration > VariableDeclarator >
    ArrayExpression[elements.length = 0].init] *)
Definition sel_declaratorEmptyArray : selector :=
  child (child (identifier "VariableDeclaration")
               (identifier "VariableDeclarator"))
        (compound [identifier "ArrayExpression";
                   attribute ["elements"; "length"] (Equals (LNumber 0));
                   field "init"]).

(** [VariableDeclaration > VariableDeclarator[init] > ObjectPattern.id] *)
Definition sel_declaratorObjectPattern : selector :=
  child (child (identifier "VariableDeclaration") declaratorWithInit)
        (compound [identifier "ObjectPattern"; field "id"]).

(** [VariableDeclaration > VariableDeclarator[init] > ArrayPattern.id] *)
Definition sel_declaratorArrayPattern : selector :=
  child (child (identifier "VariableDeclaration") declaratorWithInit)
        (compound [identifier "ArrayPattern"; field "id"]).

(** [ForOfStatement > VariableDeclaration.left > VariableDeclarator] *)
Definition sel_forOfDeclarator : selector :=
  child (child (identifier "ForOfStatement")
               (compound [identifier "VariableDeclaration"; field "left"]))
        (identifier "VariableDeclarator").

(** [ReturnStatement[argument]] *)
Definition sel_ReturnStatement : selector :=
  compound [identifier "ReturnStatement"; attribute ["argument"] Exists].

(** [ArrowFunctionExpression > :not(TSESTree.BlockStatement).body]:
    inside [:not(...)] the grammar reads the node type [TSESTree] and
    then the field [.BlockStatement]. *)
Definition sel_arrowBody : selector :=
  child (identifier "ArrowFunctionExpression")
        (compound [not_ [compound [identifier "TSESTree";
                                   field "BlockStatement"]];
                   field "body"]).

(** [CallExpression[arguments.length > 0]] *)
Definition sel_CallExpression : selector :=
  compound [identifier "CallExpression";
            attribute ["arguments"; "length"] (GreaterThan 0)].

(** [AssignmentExpression] *)
Definition sel_AssignmentExpression : selector :=
  identifier "AssignmentExpression".

(** [UpdateExpression] *)
Definition sel_UpdateExpression : selector :=
  identifier "UpdateExpression".

(** [IfStatement, WhileStatement, DoWhileStatement,
    ConditionalExpression] *)
Definition sel_booleanTest : selector :=
  matches_ [identifier "IfStatement"; identifier "WhileStatement";
            identifier "DoWhileStatement";
            identifier "ConditionalExpression"].

(** [SwitchStatement] *)
Definition sel_SwitchStatement : selector :=
  identifier "SwitchStatement".

(** [SwitchCase[test]] *)
Definition sel_SwitchCase : selector :=
  compound [identifier "SwitchCase"; attribute ["test"] Exists].

(** The object [create] returns: each selector with its handler. *)
Definition listeners : list (selector * (cursor -> M unit)) :=
  [ (sel_TSTypeReference, on_TSTypeReference);
    (sel_letDeclaratorWithoutInit, on_letDeclaratorWithoutInit);
    (sel_letDeclaratorWithInit, on_letDeclaratorWithInit);
    (sel_declaratorIdentifier, on_declaratorIdentifier);
    (sel_declaratorEmptyArray, on_declaratorEmptyArray);
    (sel_declaratorObjectPattern, on_declaratorPattern);
    (sel_declaratorArrayPattern, on_declaratorPattern);
    (sel_forOfDeclarator, on_forOfDeclarator);
    (sel_ReturnStatement, on_ReturnStatement);
    (sel_arrowBody, on_arrowBody);
    (sel_CallExpression, on_CallExpression);
    (sel_AssignmentExpression, on_AssignmentExpression);
    (sel_UpdateExpression, on_UpdateExpression);
    (sel_booleanTest, on_booleanTest);
    (sel_SwitchStatement, on_SwitchStatement);
    (sel_SwitchCase, on_SwitchCase) ].

(** One listener on one node: the handler runs if the selector matches. *)
Definition fire (l : selector * (cursor -> M unit)) (c : cursor) : M unit :=
  when (matches (fst l) c) (snd l c).

(** Entering a node: every listener is tried.  Where several match one
    node the host orders them by the specificity of their selectors;
    they are run here in the order of the table. *)
Definition enterNode (c : cursor) : M unit :=
  forEach (fun _ l => fire l c) listeners.

End Create.

(** ** The traversal

    The host walks the children of a node in the order of its visitor
    keys, skipping absent ones.  [tree] is a node with its children in
    that order, each under its step.  The name of a function declaration
    and the name of a type reference are plain strings here, not nodes:
    no selector of the rule matches an identifier in those places. *)

Inductive tree : Type :=
| Tree (n : anyNode) (children : list (step * tree)).

Section Keyed.
Context {A : Type} (key : string) (f : A -> option tree).

(** The children held by an array under [key]; a [null] element has an
    index and no node. *)
Fixpoint keyedFrom (i : nat) (l : list A) : list (step * tree) :=
  match l with
  | [] => []
  | x :: rest =>
      match f x with
      | Some t => ((key, i), t) :: keyedFrom (S i) rest
      | None => keyedFrom (S i) rest
      end
  end.

(** The children held by the array [l] under [key]. *)
Definition keyed (l : list A) : list (step * tree) := keyedFrom 0 l.
End Keyed.

(** The child held under [key]. *)
Definition single (key : string) (t : tree) : list (step * tree) :=
  [((key, 0), t)].

(** The child held under [key], where there is one. *)
Definition optional {A : Type} (key : string) (f : A -> tree) (o : option A)
  : list (step * tree) :=
  match o with
  | Some x => single key (f x)
  | None => []
  end.

(** A type node and the type nodes below it. *)
Fixpoint typeTree (t : typeNode) : tree :=
  Tree (NType t)
    match t with
    | TSArrayType elementType => single "elementType" (typeTree elementType)
    | TSTypeReference _ typeParameters =>
        keyed "typeParameters" (fun p => Some (typeTree p)) typeParameters
    | _ => []
    end.

(** The [TSTypeAnnotation] node around an annotation. *)
Definition annotationTree (t : typeNode) : tree :=
  Tree (NTypeAnnotation t) (single "typeAnnotation" (typeTree t)).

(** Patterns, expressions, statements, declarators and switch cases with
    their children, by visitor key. *)
Fixpoint patternTree (p : pattern) : tree :=
  match p with
  | PIdentifier _ ann =>
      Tree (NPattern p) (optional "typeAnnotation" annotationTree ann)
  | ObjectPattern properties ann =>
      Tree (NPattern p)
        (keyed "properties" (fun q => Some (patternTree q)) properties
         ++ optional "typeAnnotation" annotationTree ann)
  | ArrayPattern elements ann =>
      Tree (NPattern p)
        (keyed "elements" (option_map patternTree) elements
         ++ optional "typeAnnotation" annotationTree ann)
  | AssignmentPattern l r =>
      Tree (NPattern p)
        (single "left" (patternTree l) ++ single "right" (exprTree r))
  | RestElement argument =>
      Tree (NPattern p) (single "argument" (patternTree argument))
  | Property key value =>
      Tree (NPattern p)
        (single "key" (exprTree key) ++ single "value" (patternTree value))
  | PExpression e => exprTree e
  end

with exprTree (e : expr) : tree :=
  Tree (NExpr e)
    match e with
    | Identifier _ | Literal _ => []
    | ArrayExpression elements =>
        keyed "elements" (fun x => Some (exprTree x)) elements
    | MemberExpression object property =>
        single "object" (exprTree object)
        ++ single "property" (exprTree property)
    | CallExpression callee arguments =>
        single "callee" (exprTree callee)
        ++ keyed "arguments" (fun x => Some (exprTree x)) arguments
    | ArrowFunctionExpression params body =>
        keyed "params" (fun q => Some (patternTree q)) params
        ++ single "body"
             match body with
             | inl e => exprTree e
             | inr block =>
                 Tree (NStmt (BlockStatement block))
                   (keyed "body" (fun s => Some (stmtTree s)) block)
             end
    | AssignmentExpression _ l r =>
        single "left" (patternTree l) ++ single "right" (exprTree r)
    | UpdateExpression _ argument => single "argument" (exprTree argument)
    | ConditionalExpression test consequent alternate =>
        single "test" (exprTree test)
        ++ single "consequent" (exprTree consequent)
        ++ single "alternate" (exprTree alternate)
    | BinaryExpression _ l r =>
        single "left" (exprTree l) ++ single "right" (exprTree r)
    | TSAsExpression expression ann =>
        single "expression" (exprTree expression)
        ++ single "typeAnnotation" (typeTree ann)
    end

with stmtTree (s : stmt) : tree :=
  Tree (NStmt s)
    match s with
    | ExpressionStatement expression =>
        single "expression" (exprTree expression)
    | VariableDeclaration _ declarations =>
        keyed "declarations" (fun d => Some (declaratorTree d)) declarations
    | FunctionDeclaration _ params body =>
        keyed "params" (fun q => Some (patternTree q)) params
        ++ single "body"
             (Tree (NStmt (BlockStatement body))
                (keyed "body" (fun s => Some (stmtTree s)) body))
    | ReturnStatement argument => optional "argument" exprTree argument
    | IfStatement test consequent alternate =>
        single "test" (exprTree test)
        ++ single "consequent" (stmtTree consequent)
        ++ optional "alternate" stmtTree alternate
    | WhileStatement test body =>
        single "test" (exprTree test) ++ single "body" (stmtTree body)
    | DoWhileStatement body test =>
        single "body" (stmtTree body) ++ single "test" (exprTree test)
    | ForOfStatement l r body | ForInStatement l r body =>
        single "left"
          match l with
          | inl declaration => stmtTree declaration
          | inr target => patternTree target
          end
        ++ single "right" (exprTree r)
        ++ single "body" (stmtTree body)
    | SwitchStatement discriminant cases =>
        single "discriminant" (exprTree discriminant)
        ++ keyed "cases" (fun c => Some (switchCaseTree c)) cases
    | BlockStatement body =>
        keyed "body" (fun s => Some (stmtTree s)) body
    end

with declaratorTree (d : declarator) : tree :=
  match d with
  | VariableDeclarator id init =>
      Tree (NDeclarator d)
        (single "id" (patternTree id) ++ optional "init" exprTree init)
  end

with switchCaseTree (c : switchCase) : tree :=
  match c with
  | SwitchCase test consequent =>
      Tree (NSwitchCase c)
        (optional "test" exprTree test
         ++ keyed "consequent" (fun s => Some (stmtTree s)) consequent)
  end.

(** The [Program] node. *)
Definition programTree (body : list stmt) : tree :=
  Tree (NProgram body) (keyed "body" (fun s => Some (stmtTree s)) body).

Section Traverse.

Variable getTypeAtLocation : path -> ts.Type_.
Variable allowVariableAnnotationFromAny : bool.

(** The node of [t] sits at [here] under [above]: its listeners run,
    then its children are walked in order. *)
Fixpoint traverse (here : path) (above : list anyNode) (t : tree)
  {struct t} : M unit :=
  match t with
  | Tree n children =>
      enterNode getTypeAtLocation allowVariableAnnotationFromAny
        (mkCursor n here above) ;;
      forEach (fun _ kt =>
                 traverse (fst kt :: here) (n :: above) (snd kt))
        children
  end.

(** Linting a program. *)
Definition lint (body : list stmt) : M unit :=
  traverse [] [] (programTree body).

End Traverse.

(** * The vocabulary of the properties *)

(** ** Computations *)

(** The reports already made do not influence [m]: started from [s] it
    appends to [s] what it reports when started from none, and it ends
    the same way. *)
Definition Framed {A : Type} (m : M A) : Prop :=
  forall s, m s = (s ++ emitted m, outcome m).

(** [m] is framed and every report it makes satisfies [I]. *)
Definition Emits {A : Type} (I : diagnostic -> Prop) (m : M A) : Prop :=
  Framed m /\ Forall I (emitted m).

(** A computation that reports nothing and returns. *)
Definition Skip (k : M unit) : Prop := forall s, k s = (s, Ok tt).

(** [m] is framed and does not end in [IllTyped]. *)
Definition WellTyped {A : Type} (m : M A) : Prop :=
  Framed m /\ outcome m <> Throw IllTyped.

(** ** Patterns *)

(** The walk of a pattern reaches the value of a [Property], a property of
    another type itself, and the present elements of an array. *)
Definition walked (P : pattern -> Prop) (prop : pattern) : Prop :=
  match prop with
  | Property _ value => P value
  | _ => P prop
  end.

(** [P] of the element, where there is one. *)
Definition walkedElement (P : pattern -> Prop) (el : option pattern) : Prop :=
  match el with
  | Some p => P p
  | None => True
  end.

(** Where the walk of a pattern stops. *)
Definition isLeaf (p : pattern) : bool :=
  match p with
  | ObjectPattern _ _ | ArrayPattern _ _ => false
  | _ => true
  end.

(** What the [id] of a declarator can be ([TSESTree.BindingName]). *)
Definition isBindingName (p : pattern) : bool :=
  match p with
  | PIdentifier _ _ | ObjectPattern _ _ | ArrayPattern _ _ => true
  | _ => false
  end.

Section Indexed.
Context {A B : Type} (f : nat -> A -> list B).

(** [f] of each element with its index, from [i] on, concatenated. *)
Fixpoint flatMapFrom (i : nat) (l : list A) : list B :=
  match l with
  | [] => []
  | x :: rest => f i x ++ flatMapFrom (S i) rest
  end.
End Indexed.

(** The positions at which the walk of a pattern stops, in the order it
    reaches them: whatever is neither an object nor an array pattern (an
    identifier, an element with a default value, a rest element). *)
Fixpoint leaves (here : path) (node : pattern) {struct node} : list path :=
  match node with
  | ObjectPattern properties _ =>
      flatMapFrom (fun i prop =>
        match prop with
        | Property _ value =>
            leaves (("value", 0) :: ("properties", i) :: here) value
        | _ => leaves (("properties", i) :: here) prop
        end) 0 properties
  | ArrayPattern elements _ =>
      flatMapFrom (fun i el =>
        match el with
        | Some el => leaves (("elements", i) :: here) el
        | None => []
        end) 0 elements
  | _ => [here]
  end.

(** Whether the walk of a pattern meets an elision. *)
Fixpoint hasElision (node : pattern) {struct node} : bool :=
  match node with
  | ObjectPattern properties _ =>
      existsb (fun prop =>
        match prop with
        | Property _ value => hasElision value
        | _ => hasElision prop
        end) properties
  | ArrayPattern elements _ =>
      existsb (fun el =>
        match el with
        | Some el => hasElision el
        | None => true
        end) elements
  | _ => false
  end.

(** The report of the walk for a leaf. *)
Definition patternReport (leaf : path) : diagnostic :=
  mkDiagnostic leaf patternVariableDeclarationInitialisedToAny [].

(** ** The shape of a report *)

(** The members of [MessageIds]. *)
Definition MessageIds_all : list MessageIds :=
  [ typeReferenceResolvesToAny;
    variableDeclarationInitialisedToAnyWithoutAnnotation;
    variableDeclarationInitialisedToAnyWithAnnotation;
    patternVariableDeclarationInitialisedToAny;
    letVariableInitialisedToNullishAndNoAnnotation;
    letVariableWithNoInitialAndNoAnnotation;
    loopVariableInitialisedToAny;
    returnAny;
    passedArgumentIsAny;
    assignmentValueIsAny;
    updateExpressionIsAny;
    booleanTestIsAny;
    switchDiscriminantIsAny;
    switchCaseTestIsAny ].

(** The placeholders of the message text of [meta.messages]. *)
Definition requiredData (m : MessageIds) : list string :=
  match m with
  | typeReferenceResolvesToAny => ["typeName"]
  | letVariableInitialisedToNullishAndNoAnnotation
  | letVariableWithNoInitialAndNoAnnotation
  | booleanTestIsAny => ["kind"]
  | _ => []
  end.

(** [data[key]], where it is a string. *)
Fixpoint dataValue (key : string) (data : list (string * option string))
  : option string :=
  match data with
  | [] => None
  | (k, v) :: rest => if k =? key then v else dataValue key rest
  end.

(** The values of [typeToText]. *)
Definition booleanTestKinds : list string :=
  ["if"; "while"; "do while"; "ternary"].

(** [data[key]] is set. *)
Definition populated (d : diagnostic) (key : string) : bool :=
  match dataValue key (data d) with
  | Some _ => true
  | None => false
  end.

(** The message is one of the 14, every placeholder of its text is set,
    and the [kind] of booleanTestIsAny is one of the four labels. *)
Definition wellFormed (d : diagnostic) : bool :=
  existsb (MessageIds_eqb (messageId d)) MessageIds_all &&
  forallb (populated d) (requiredData (messageId d)) &&
  match messageId d with
  | booleanTestIsAny =>
      match dataValue "kind" (data d) with
      | Some kind => existsb (String.eqb kind) booleanTestKinds
      | None => false
      end
  | _ => true
  end.

(** ** Where a report is anchored *)

(** One of the listeners that report at the parent of the node, the
    declarator, matches: those on its [id] and on an empty array [init]. *)
Definition reportsForParent (c : cursor) : bool :=
  matches sel_declaratorIdentifier c
  || matches sel_declaratorEmptyArray c
  || matches sel_declaratorObjectPattern c
  || matches sel_declaratorArrayPattern c.

(** Where a report made on entering [c] is anchored, by message: at the
    node, at one of its children, below it (the leaves of a pattern) or,
    for the two declaration messages, at its parent. *)
Definition origin (c : cursor) (d : diagnostic) : Prop :=
  match messageId d with
  | variableDeclarationInitialisedToAnyWithoutAnnotation
  | variableDeclarationInitialisedToAnyWithAnnotation =>
      node d = tl (at_ c) /\ reportsForParent c = true
  | patternVariableDeclarationInitialisedToAny =>
      exists l, node d = l ++ at_ c
  | passedArgumentIsAny => exists i, node d = ("arguments", i) :: at_ c
  | booleanTestIsAny => node d = ("test", 0) :: at_ c
  | switchDiscriminantIsAny => node d = ("discriminant", 0) :: at_ c
  | _ => node d = at_ c
  end.

(** A report made on entering a node at depth [k] is anchored at depth
    [k - 1] or deeper. *)
Definition notAbove (k : nat) (d : diagnostic) : Prop :=
  k <= S (List.length (node d)).

(** A passedArgumentIsAny made on entering a node at depth [k] is
    anchored at depth [k + 1]. *)
Definition argumentsBelow (k : nat) (d : diagnostic) : Prop :=
  messageId d = passedArgumentIsAny -> S k <= List.length (node d).

(** The two messages of [reportVariableDeclarationInitialisedToAny]. *)
Definition isDeclarationMessage (m : MessageIds) : bool :=
  match m with
  | variableDeclarationInitialisedToAnyWithoutAnnotation
  | variableDeclarationInitialisedToAnyWithAnnotation => true
  | _ => false
  end.

(** A report other than the two declaration messages, made on entering a
    node at depth [k], is anchored at depth [k] or deeper. *)
Definition selfOrBelow (k : nat) (d : diagnostic) : Prop :=
  isDeclarationMessage (messageId d) = false -> k <= List.length (node d).

(** Equality of positions. *)
Definition step_eqb (a b : step) : bool :=
  (fst a =? fst b) && (snd a =? snd b)%nat.

Fixpoint path_eqb (a b : path) : bool :=
  match a, b with
  | [], [] => true
  | x :: a', y :: b' => step_eqb x y && path_eqb a' b'
  | _, _ => false
  end.

(** The reports of [ds] anchored at [p], in order. *)
Definition anchoredAt (p : path) (ds : list diagnostic) : list diagnostic :=
  filter (fun d => path_eqb (node d) p) ds.

(** The report for the [i]-th argument of the call at [here]. *)
Definition argumentReport (here : path) (i : nat) : diagnostic :=
  mkDiagnostic (("arguments", i) :: here) passedArgumentIsAny [].

(** A passedArgumentIsAny report anchored at an argument of the call at
    [here]. *)
Definition isArgumentReportOf (here : path) (d : diagnostic) : bool :=
  MessageIds_eqb (messageId d) passedArgumentIsAny &&
  match node d with
  | (key, _) :: p => (key =? "arguments") && path_eqb p here
  | [] => false
  end.

(** An updateExpressionIsAny report anchored at [here]. *)
Definition isUpdateReportAt (here : path) (d : diagnostic) : bool :=
  MessageIds_eqb (messageId d) updateExpressionIsAny
  && path_eqb (node d) here.

(** The report of the two let-variable policies for a declarator at
    [here] of a [let] or [var] declaration whose [id] has no annotation. *)
Definition letReport (here : path) (kind : declarationKind)
  (init : option expr) : list diagnostic :=
  match init with
  | None =>
      [mkDiagnostic here letVariableWithNoInitialAndNoAnnotation
         [("kind", Some (kindText kind))]]
  | Some _ =>
      if isNullLiteral init || isUndefinedIdentifier init
      then [mkDiagnostic here letVariableInitialisedToNullishAndNoAnnotation
              [("kind", Some (kindText kind))]]
      else []
  end.

(** ** What the policies report *)

Section Vocabulary.

Variable getTypeAtLocation : path -> ts.Type_.
Variable allowVariableAnnotationFromAny : bool.

(** The walk of the children of a node that sits at [here]. *)
Definition walkChildren (here : path) (above : list anyNode) (n : anyNode)
  (children : list (step * tree)) : M unit :=
  forEach (fun _ kt =>
             traverse getTypeAtLocation allowVariableAnnotationFromAny
               (fst kt :: here) (n :: above) (snd kt))
    children.

(** What [reportVariableDeclarationInitialisedToAny] reports for a
    declarator whose [id] carries [annotation]. *)
Definition declarationReport (here : path) (annotation : option typeNode)
  : list diagnostic :=
  match annotation with
  | None =>
      [mkDiagnostic here
         variableDeclarationInitialisedToAnyWithoutAnnotation []]
  | Some written =>
      if allowVariableAnnotationFromAny then []
      else
        match written with
        | TSUnknownKeyword => []
        | _ =>
            [mkDiagnostic here
               variableDeclarationInitialisedToAnyWithAnnotation []]
        end
  end.

(** What the walk of a pattern without elisions reports. *)
Definition leafReports (here : path) (node : pattern) : list diagnostic :=
  map patternReport
    (filter (isAnyOrAnyArrayType getTypeAtLocation) (leaves here node)).

(** The indices of the arguments of a call at [here] that resolve to
    [any] or [any[]], in order. *)
Definition anyArguments (here : path) (arguments : list expr) : list nat :=
  filter (fun i => isAnyOrAnyArrayType getTypeAtLocation
                     (("arguments", i) :: here))
    (seq 0 (List.length arguments)).

(** The report of the loop-variable policy for the declarator at [c]. *)
Definition loopReport (c : cursor) : list diagnostic :=
  if matches sel_forOfDeclarator c
     && isAnyOrAnyArrayType getTypeAtLocation (at_ c)
  then [mkDiagnostic (at_ c) loopVariableInitialisedToAny []]
  else [].

(** The report of the declaration policy for a declarator at [here]
    whose [id] has no annotation. *)
Definition initReport (here : path) (init : option expr) : list diagnostic :=
  match init with
  | Some _ =>
      if isAnyOrAnyArrayType getTypeAtLocation (("init", 0) :: here)
      then [mkDiagnostic here
              variableDeclarationInitialisedToAnyWithoutAnnotation []]
      else []
  | None => []
  end.

End Vocabulary.

(** ** Reports by message *)

(** A report with message [m] anchored at [here]. *)
Definition isReportAt (m : MessageIds) (here : path) (d : diagnostic) : bool :=
  MessageIds_eqb (messageId d) m && path_eqb (node d) here.

(** The messages a listener anchors at a child of the node it is called
    for: an argument, the test, the discriminant. *)
Definition isChildMessage (m : MessageIds) : bool :=
  match m with
  | passedArgumentIsAny | booleanTestIsAny | switchDiscriminantIsAny => true
  | _ => false
  end.

(** A report anchored at a child of its node, made on entering a node at
    depth [k], is anchored at depth [k + 1]. *)
Definition childrenBelow (k : nat) (d : diagnostic) : Prop :=
  isChildMessage (messageId d) = true -> S k <= List.length (node d).

(** Every report but variableDeclarationInitialisedToAnyWithAnnotation. *)
Definition notWithAnnotation (d : diagnostic) : bool :=
  negb (MessageIds_eqb (messageId d)
          variableDeclarationInitialisedToAnyWithAnnotation).

(** The two let-variable messages. *)
Definition isLetMessage (m : MessageIds) : bool :=
  match m with
  | letVariableWithNoInitialAndNoAnnotation
  | letVariableInitialisedToNullishAndNoAnnotation => true
  | _ => false
  end.

(** A let-variable report anchored at [here]. *)
Definition isLetReportAt (here : path) (d : diagnostic) : bool :=
  isLetMessage (messageId d) && path_eqb (node d) here.

(** The two let-variable listeners return at once for the declarator: its
    declaration is a [const] one (no selector matches) or its [id] is
    annotated. *)
Definition exemptFromLet (kind : declarationKind) (id : pattern) : bool :=
  match kind, typeAnnotationOf id with
  | Kconst, _ | _, Some _ => true
  | _, None => false
  end.

(** ** How a computation ends *)

(** [m] is framed and returns. *)
Definition Returns (m : M unit) : Prop := Framed m /\ outcome m = Ok tt.

(** [m] reports what [m'] reports and [keep] keeps, and ends as [m']
    does. *)
Definition Silences (keep : diagnostic -> bool) (m m' : M unit) : Prop :=
  Framed m /\ Framed m' /\ outcome m = outcome m'
  /\ emitted m = filter keep (emitted m').

(** ** Where a traversal aborts *)

(** The cursors of the nodes of [t], which sits at [here] under [above],
    in the order of the traversal. *)
Fixpoint cursors (here : path) (above : list anyNode) (t : tree)
  {struct t} : list cursor :=
  match t with
  | Tree n children =>
      mkCursor n here above
      :: flat_map (fun kt => cursors (fst kt :: here) (n :: above) (snd kt))
           children
  end.

(** The cursors of the nodes of a program. *)
Definition programCursors (body : list stmt) : list cursor :=
  cursors [] [] (programTree body).

Section Aborts.

Variable getTypeAtLocation : path -> ts.Type_.

(** The node is the object or array pattern that a declarator with an
    initializer declares, the initializer resolves neither to [any] nor to
    [any[]], and the walk of the pattern meets an elision. *)
Definition aborts (c : cursor) : bool :=
  (matches sel_declaratorObjectPattern c
   || matches sel_declaratorArrayPattern c)
  && negb (isAnyOrAnyArrayType getTypeAtLocation (("init", 0) :: tl (at_ c)))
  && match focus c with
     | NPattern p => hasElision p
     | _ => false
     end.

End Aborts.

(** ** Where the checker has no answer

    [getTypeAtLocation] answers at every node.  The checker the rule runs
    on has no symbol for a declaration that is named by a pattern and
    throws a TypeError when it is asked for the type of one: a
    declarator, an element with a default value or a rest element whose
    binding is an object or array pattern.  What is said of how a walk or
    a traversal ends, and of the reports that follow such a question, is
    said of the nodes where the checker answers. *)

(** A declaration that is named by a pattern. *)
Definition namedByPattern (n : anyNode) : bool :=
  match n with
  | NDeclarator (VariableDeclarator id _) => negb (isLeaf id)
  | NPattern (AssignmentPattern binding _) => negb (isLeaf binding)
  | NPattern (RestElement binding) => negb (isLeaf binding)
  | _ => false
  end.

(** The checker has an answer for every leaf of the pattern: no element
    with a default value and no rest element binds a pattern in its
    turn. *)
Fixpoint walkAnswered (node : pattern) {struct node} : bool :=
  match node with
  | ObjectPattern properties _ =>
      forallb (fun prop =>
        match prop with
        | Property _ value => walkAnswered value
        | _ => walkAnswered prop
        end) properties
  | ArrayPattern elements _ =>
      forallb (fun el =>
        match el with
        | Some el => walkAnswered el
        | None => true
        end) elements
  | _ => negb (namedByPattern (NPattern node))
  end.

(** The node is the loop variable of a for-of statement and is declared
    by a pattern: the listener on loop variables asks for its type. *)
Definition loopUnanswered (c : cursor) : bool :=
  matches sel_forOfDeclarator c && namedByPattern (focus c).

(** A node for which some listener may ask the checker what it has no
    answer for: such a loop variable, or the object or array pattern of
    a declarator with an initializer, where some leaf of the pattern is
    named by a pattern. *)
Definition unanswerable (c : cursor) : bool :=
  loopUnanswered c
  || (matches sel_declaratorObjectPattern c
      || matches sel_declaratorArrayPattern c)
     && match focus c with
        | NPattern p => negb (walkAnswered p)
        | _ => false
        end.

(** ** The leaves a walk reaches *)

Section Until.
Context {A B : Type} (f : nat -> A -> list B * bool).

(** [f] of each element with its index, from [i] on, concatenated, up to
    and with the first element at which [f] says to stop; and whether it
    stopped. *)
Fixpoint flatMapUntil (i : nat) (l : list A) : list B * bool :=
  match l with
  | [] => ([], false)
  | x :: rest =>
      if snd (f i x) then (fst (f i x), true)
      else (fst (f i x) ++ fst (flatMapUntil (S i) rest),
            snd (flatMapUntil (S i) rest))
  end.
End Until.

(** The leaves the walk of a pattern reaches before its first elision, in
    the order it reaches them, and whether it meets an elision. *)
Fixpoint reached (here : path) (node : pattern) {struct node}
  : list path * bool :=
  match node with
  | ObjectPattern properties _ =>
      flatMapUntil (fun i prop =>
        match prop with
        | Property _ value =>
            reached (("value", 0) :: ("properties", i) :: here) value
        | _ => reached (("properties", i) :: here) prop
        end) 0 properties
  | ArrayPattern elements _ =>
      flatMapUntil (fun i el =>
        match el with
        | Some el => reached (("elements", i) :: here) el
        | None => ([], true)
        end) 0 elements
  | _ => ([here], false)
  end.

(** ** The answer behind a report *)

Section Backed.

Variable getTypeAtLocation : path -> ts.Type_.

(** The answer of the checker that the listener of a report has tested,
    at the node it asked about, by message and anchor.  The two
    let-variable listeners and the listener on an empty array
    initializer, whose message is
    variableDeclarationInitialisedToAnyWithoutAnnotation, report without
    asking. *)
Definition backed (d : diagnostic) : bool :=
  match messageId d with
  | typeReferenceResolvesToAny => isAnyType getTypeAtLocation (node d)
  | variableDeclarationInitialisedToAnyWithAnnotation =>
      isAnyOrAnyArrayType getTypeAtLocation (("init", 0) :: node d)
  | patternVariableDeclarationInitialisedToAny
  | loopVariableInitialisedToAny
  | passedArgumentIsAny
  | booleanTestIsAny
  | switchDiscriminantIsAny =>
      isAnyOrAnyArrayType getTypeAtLocation (node d)
  | returnAny =>
      isAnyOrAnyArrayType getTypeAtLocation (("argument", 0) :: node d)
      || isAnyOrAnyArrayType getTypeAtLocation (node d)
  | assignmentValueIsAny =>
      isAnyOrAnyArrayType getTypeAtLocation (("right", 0) :: node d)
  | updateExpressionIsAny =>
      isAnyType getTypeAtLocation (("argument", 0) :: node d)
  | switchCaseTestIsAny =>
      isAnyOrAnyArrayType getTypeAtLocation (("test", 0) :: node d)
  | variableDeclarationInitialisedToAnyWithoutAnnotation
  | letVariableInitialisedToNullishAndNoAnnotation
  | letVariableWithNoInitialAndNoAnnotation => true
  end.

End Backed.

(** ** Concrete checkers and positions *)

(** [number], [any] and [any[]]. *)
Definition numberType : ts.Type_ := ts.mkType ts.TypeFlags_Number false false 0.

Definition anyType : ts.Type_ := ts.mkType ts.TypeFlags_Any false false 0.

Definition anyArrayType : ts.Type_ :=
  ts.mkType ts.TypeFlags_Object true true ts.TypeFlags_Any.

(** A checker that resolves the positions of [anys] to [any], those of
    [anyArrays] to [any[]] and every other to [number]. *)
Definition resolving (anys anyArrays : list path) : path -> ts.Type_ :=
  fun p =>
    if existsb (path_eqb p) anys then anyType
    else if existsb (path_eqb p) anyArrays then anyArrayType
    else numberType.

(** The first declarator of the first statement of a program. *)
Definition firstDeclarator : path := [("declarations", 0); ("body", 0)].

(** * Properties *)

(** ** Handlers only append to the reports

    A computation is [Framed] when the reports already made do not
    influence it: started from [s] it appends to [s] what it reports when
    started from none, and ends the same way. *)

Lemma Framed_ret {A : Type} (a : A) : Framed (ret a).
Proof. intros s. unfold ret, emitted, outcome. simpl. now rewrite app_nil_r. Qed.

Lemma Framed_throw {A : Type} (e : error) : Framed (@throw A e).
Proof. intros s. unfold throw, emitted, outcome. simpl. now rewrite app_nil_r. Qed.

Lemma Framed_report (d : diagnostic) : Framed (report d).
Proof. intros s. reflexivity. Qed.

Lemma Framed_bind {A B : Type} (m : M A) (f : A -> M B) :
  Framed m -> (forall a, Framed (f a)) -> Framed (bind m f).
Proof.
  intros Hm Hf s. unfold emitted, outcome, bind.
  rewrite (Hm s), (Hm []). simpl.
  destruct (outcome m) as [a|e].
  - rewrite (Hf a (s ++ emitted m)), (Hf a (emitted m)). simpl.
    now rewrite app_assoc.
  - reflexivity.
Qed.

Lemma Framed_when (b : bool) (m : M unit) : Framed m -> Framed (when b m).
Proof. destruct b; simpl; auto using Framed_ret. Qed.

Lemma Framed_nullThrows {A : Type} (o : option A) : Framed (nullThrows o).
Proof. destruct o; simpl; auto using Framed_ret, Framed_throw. Qed.

Lemma Framed_forEachFrom {A : Type} (f : nat -> A -> M unit) (l : list A) :
  Forall (fun x => forall i, Framed (f i x)) l ->
  forall i, Framed (forEachFrom f i l).
Proof.
  induction 1 as [|x l Hx _ IH]; intros i; simpl.
  - apply Framed_ret.
  - apply Framed_bind; auto.
Qed.

Lemma Framed_forEach {A : Type} (f : nat -> A -> M unit) (l : list A) :
  (forall i x, Framed (f i x)) -> Framed (forEach f l).
Proof.
  intros H. apply Framed_forEachFrom. apply Forall_forall. auto.
Qed.

(** What a framed sequence reports and how it ends. *)
Lemma emitted_bind {A B : Type} (m : M A) (f : A -> M B) :
  Framed m -> (forall a, Framed (f a)) ->
  emitted (bind m f) =
  emitted m ++ match outcome m with
               | Ok a => emitted (f a)
               | Throw _ => []
               end.
Proof.
  intros Hm Hf. unfold emitted at 1. unfold bind.
  rewrite (Hm []). simpl.
  destruct (outcome m) as [a|e]; simpl.
  - now rewrite (Hf a (emitted m)).
  - now rewrite app_nil_r.
Qed.

Lemma outcome_bind {A B : Type} (m : M A) (f : A -> M B) :
  Framed m -> (forall a, Framed (f a)) ->
  outcome (bind m f) = match outcome m with
                       | Ok a => outcome (f a)
                       | Throw e => Throw e
                       end.
Proof.
  intros Hm Hf. unfold outcome at 1. unfold bind.
  rewrite (Hm []). simpl.
  destruct (outcome m) as [a|e]; simpl.
  - now rewrite (Hf a (emitted m)).
  - reflexivity.
Qed.

Create HintDb framed.
#[local] Hint Resolve Framed_ret Framed_throw Framed_report Framed_when
  Framed_nullThrows : framed.

(** Case analysis on whatever a handler branches on, down to the
    combinators. *)
Ltac framed_step :=
  match goal with
  | |- Framed (ret _) => apply Framed_ret
  | |- Framed (throw _) => apply Framed_throw
  | |- Framed (report _) => apply Framed_report
  | |- Framed (nullThrows _) => apply Framed_nullThrows
  | |- Framed (when _ _) => apply Framed_when
  | |- Framed (bind _ _) => apply Framed_bind; [|intros ?]
  | |- Framed (forEach _ _) => apply Framed_forEach; intros ? ?
  | |- Framed (match ?x with _ => _ end) => destruct x
  | |- Framed (if ?b then _ else _) => destruct b
  | |- Framed (let _ := _ in _) => cbv zeta
  end.

Ltac framed := repeat framed_step.

Lemma pattern_walk_ind (P : pattern -> Prop) :
  (forall properties ann,
      Forall (walked P) properties -> P (ObjectPattern properties ann)) ->
  (forall elements ann,
      Forall (walkedElement P) elements -> P (ArrayPattern elements ann)) ->
  (forall p, isLeaf p = true -> P p) ->
  forall p, P p.
Proof.
  intros HO HA HL. fix IH 1. intros p.
  destruct p as [n a|properties a|elements a|l r|arg|k v|e];
    try (apply HL; reflexivity).
  - apply HO. induction properties as [|x rest IHrest]; constructor.
    + pose proof (IH x) as Hx.
      destruct x; simpl; try exact Hx. apply IH.
    + exact IHrest.
  - apply HA. induction elements as [|x rest IHrest]; constructor.
    + destruct x as [x|]; simpl; [apply IH | exact I].
    + exact IHrest.
Qed.

Section FramedHandlers.

Variable getTypeAtLocation : path -> ts.Type_.
Variable allowVariableAnnotationFromAny : bool.

Lemma Framed_reportVariableDeclarationInitialisedToAny c :
  Framed (reportVariableDeclarationInitialisedToAny
            allowVariableAnnotationFromAny c).
Proof. unfold reportVariableDeclarationInitialisedToAny. framed. Qed.

Lemma Framed_checkDestructuringPattern p :
  forall here,
    Framed (checkDestructuringPattern getTypeAtLocation here p).
Proof.
  induction p as [properties ann IH|elements ann IH|p Hleaf]
    using pattern_walk_ind; intros here.
  - simpl. apply Framed_forEachFrom.
    eapply Forall_impl; [|exact IH].
    intros prop Hprop i. destruct prop; simpl in Hprop; apply Hprop.
  - simpl. apply Framed_forEachFrom.
    eapply Forall_impl; [|exact IH].
    intros el Hel i. destruct el; simpl in Hel; [apply Hel|apply Framed_throw].
  - destruct p; try discriminate Hleaf; simpl; framed.
Qed.

Lemma Framed_listener l c :
  In l (listeners getTypeAtLocation allowVariableAnnotationFromAny) ->
  Framed (snd l c).
Proof.
  unfold listeners. simpl.
  intros H.
  repeat (destruct H as [H|H]; [subst l; simpl|]); try contradiction;
    unfold on_TSTypeReference, on_letDeclaratorWithoutInit,
      on_letDeclaratorWithInit, on_declaratorIdentifier,
      on_declaratorEmptyArray, on_declaratorPattern, on_forOfDeclarator,
      on_ReturnStatement, on_arrowBody, on_CallExpression,
      on_AssignmentExpression, on_UpdateExpression, on_booleanTest,
      on_SwitchStatement, on_SwitchCase;
    repeat first
      [ apply Framed_reportVariableDeclarationInitialisedToAny
      | apply Framed_checkDestructuringPattern
      | framed_step ].
Qed.

Lemma Framed_enterNode c :
  Framed (enterNode getTypeAtLocation allowVariableAnnotationFromAny c).
Proof.
  unfold enterNode. apply Framed_forEachFrom.
  apply Forall_forall. intros l Hl i. unfold fire.
  apply Framed_when. now apply Framed_listener.
Qed.

End FramedHandlers.

(** ** What a computation can report

    [Emits I m]: [m] is framed and every report it makes satisfies [I]. *)

Section EmitsRules.

Variable I : diagnostic -> Prop.

Lemma Emits_ret {A : Type} (a : A) : Emits I (ret a).
Proof. split; [apply Framed_ret | constructor]. Qed.

Lemma Emits_throw {A : Type} (e : error) : Emits I (@throw A e).
Proof. split; [apply Framed_throw | constructor]. Qed.

Lemma Emits_report (d : diagnostic) : I d -> Emits I (report d).
Proof. split; [apply Framed_report | repeat constructor; assumption]. Qed.

Lemma Emits_bind {A B : Type} (m : M A) (f : A -> M B) :
  Emits I m -> (forall a, Emits I (f a)) -> Emits I (bind m f).
Proof.
  intros [Fm Hm] Hf. split.
  - apply Framed_bind; [assumption | intros a; apply Hf].
  - rewrite emitted_bind by (assumption || intros a; apply Hf).
    apply Forall_app. split; [assumption|].
    destruct (outcome m); [apply Hf | constructor].
Qed.

Lemma Emits_when (b : bool) (m : M unit) : Emits I m -> Emits I (when b m).
Proof. destruct b; simpl; auto using Emits_ret. Qed.

Lemma Emits_nullThrows {A : Type} (o : option A) : Emits I (nullThrows o).
Proof. destruct o; simpl; auto using Emits_ret, Emits_throw. Qed.

Lemma Emits_forEachFrom {A : Type} (f : nat -> A -> M unit) (l : list A) :
  Forall (fun x => forall i, Emits I (f i x)) l ->
  forall i, Emits I (forEachFrom f i l).
Proof.
  induction 1 as [|x l Hx _ IH]; intros i; simpl.
  - apply Emits_ret.
  - apply Emits_bind; auto.
Qed.

Lemma Emits_forEach {A : Type} (f : nat -> A -> M unit) (l : list A) :
  (forall i x, Emits I (f i x)) -> Emits I (forEach f l).
Proof.
  intros H. apply Emits_forEachFrom. apply Forall_forall. auto.
Qed.

End EmitsRules.

Lemma Emits_impl {A : Type} (I J : diagnostic -> Prop) (m : M A) :
  (forall d, I d -> J d) -> Emits I m -> Emits J m.
Proof.
  intros H [Fm Hm]. split; [assumption|].
  eapply Forall_impl; [exact H | exact Hm].
Qed.

(** Down to the reports of a handler: what is left to show is that each
    satisfies the invariant. *)
Ltac emits_step :=
  match goal with
  | |- Emits _ (ret _) => apply Emits_ret
  | |- Emits _ (throw _) => apply Emits_throw
  | |- Emits _ (report _) => apply Emits_report
  | |- Emits _ (nullThrows _) => apply Emits_nullThrows
  | |- Emits _ (when _ _) => apply Emits_when
  | |- Emits _ (bind _ _) => apply Emits_bind; [|intros ?]
  | |- Emits _ (forEach _ _) => apply Emits_forEach; intros ? ?
  | |- Emits _ (match ?x with _ => _ end) => destruct x eqn:?
  | |- Emits _ (if ?b then _ else _) => destruct b eqn:?
  | |- Emits _ (let _ := _ in _) => cbv zeta
  end.

Ltac emits := repeat emits_step.

Ltac unfold_handlers :=
  unfold on_TSTypeReference, on_letDeclaratorWithoutInit,
    on_letDeclaratorWithInit, on_declaratorIdentifier,
    on_declaratorEmptyArray, on_declaratorPattern, on_forOfDeclarator,
    on_ReturnStatement, on_arrowBody, on_CallExpression,
    on_AssignmentExpression, on_UpdateExpression, on_booleanTest,
    on_SwitchStatement, on_SwitchCase,
    reportVariableDeclarationInitialisedToAny.

(** ** The traversal reports what entering its nodes reports *)

Lemma tree_walk_ind (P : tree -> Prop) :
  (forall n children,
      Forall (fun kt => P (snd kt)) children -> P (Tree n children)) ->
  forall t, P t.
Proof.
  intros H. fix IH 1. intros [n children]. apply H.
  induction children as [|kt rest IHrest]; constructor.
  - apply IH.
  - exact IHrest.
Qed.

Section TraverseRules.

Variable getTypeAtLocation : path -> ts.Type_.
Variable allowVariableAnnotationFromAny : bool.

Lemma traverse_unfold here above n children :
  traverse getTypeAtLocation allowVariableAnnotationFromAny here above
    (Tree n children)
  = (enterNode getTypeAtLocation allowVariableAnnotationFromAny
       (mkCursor n here above) ;;
     walkChildren getTypeAtLocation allowVariableAnnotationFromAny
       here above n children).
Proof. reflexivity. Qed.

(** An invariant of reports that may depend on how deep the reporting
    node sits, and that holds of the nodes above once it holds of one. *)
Lemma traverse_Emits (I : nat -> diagnostic -> Prop) :
  (forall k d, I (S k) d -> I k d) ->
  (forall c,
      Emits (I (List.length (at_ c)))
        (enterNode getTypeAtLocation allowVariableAnnotationFromAny c)) ->
  forall t here above,
    Emits (I (List.length here))
      (traverse getTypeAtLocation allowVariableAnnotationFromAny
         here above t).
Proof.
  intros Hmono Henter.
  induction t as [n children IH] using tree_walk_ind; intros here above.
  rewrite traverse_unfold. apply Emits_bind.
  - apply (Henter (mkCursor n here above)).
  - intros _. unfold walkChildren. apply Emits_forEachFrom.
    eapply Forall_impl; [|exact IH].
    intros kt Hkt _. simpl in Hkt.
    eapply Emits_impl; [apply Hmono|].
    apply (Hkt (fst kt :: here) (n :: above)).
Qed.

Lemma walkChildren_Emits (I : nat -> diagnostic -> Prop) :
  (forall k d, I (S k) d -> I k d) ->
  (forall c,
      Emits (I (List.length (at_ c)))
        (enterNode getTypeAtLocation allowVariableAnnotationFromAny c)) ->
  forall here above n children,
    Emits (I (S (List.length here)))
      (walkChildren getTypeAtLocation allowVariableAnnotationFromAny
         here above n children).
Proof.
  intros Hmono Henter here above n children.
  unfold walkChildren. apply Emits_forEach. intros _ kt.
  apply (traverse_Emits I Hmono Henter (snd kt) (fst kt :: here)).
Qed.

Lemma Framed_traverse t here above :
  Framed (traverse getTypeAtLocation allowVariableAnnotationFromAny
            here above t).
Proof.
  apply (traverse_Emits (fun _ _ => True)); auto.
  intros c. split; [apply Framed_enterNode|].
  apply Forall_forall. auto.
Qed.

End TraverseRules.

(** ** The shape of a report *)

Lemma hasTest_typeToText n :
  hasTest n = true ->
  exists kind, typeToText (nodeType n) = Some kind /\
               In kind booleanTestKinds.
Proof.
  intros H.
  destruct n as [b|s|e|p|d|c|t|t]; try discriminate H.
  - destruct s; try discriminate H; eexists;
      (split; [reflexivity | simpl; tauto]).
  - destruct e; try discriminate H; eexists;
      (split; [reflexivity | simpl; tauto]).
  - destruct p as [ | | | | | |e]; try discriminate H.
    destruct e; try discriminate H; eexists;
      (split; [reflexivity | simpl; tauto]).
Qed.

Section Reports.

Variable getTypeAtLocation : path -> ts.Type_.
Variable allowVariableAnnotationFromAny : bool.

(** The walk of a pattern reports [patternVariableDeclarationInitialisedToAny]
    only, at positions below the pattern. *)
Lemma checkDestructuringPattern_Emits p :
  forall here,
    Emits (fun d => messageId d = patternVariableDeclarationInitialisedToAny
                    /\ data d = []
                    /\ exists l, node d = l ++ here)
      (checkDestructuringPattern getTypeAtLocation here p).
Proof.
  induction p as [properties ann IH|elements ann IH|p Hleaf]
    using pattern_walk_ind; intros here.
  - simpl. apply Emits_forEachFrom.
    eapply Forall_impl; [|exact IH].
    intros prop Hprop i.
    destruct prop; simpl in Hprop;
      (eapply Emits_impl; [|apply Hprop]);
      intros d (Hm & Hd & l & Hl); repeat split; auto;
      rewrite Hl;
      first [ exists (l ++ [("properties", i)]);
              rewrite <- app_assoc; reflexivity
            | exists (l ++ [("value", 0); ("properties", i)]);
              rewrite <- app_assoc; reflexivity ].
  - simpl. apply Emits_forEachFrom.
    eapply Forall_impl; [|exact IH].
    intros el Hel i. destruct el; simpl in Hel; [|apply Emits_throw].
    eapply Emits_impl; [|apply Hel].
    intros d (Hm & Hd & l & Hl); repeat split; auto.
    rewrite Hl. exists (l ++ [("elements", i)]). now rewrite <- app_assoc.
  - destruct p; try discriminate Hleaf; simpl; emits;
      simpl; repeat split; exists []; reflexivity.
Qed.

Lemma on_booleanTest_wellFormed c :
  Emits (fun d => wellFormed d = true) (on_booleanTest getTypeAtLocation c).
Proof.
  unfold on_booleanTest.
  destruct (hasTest (focus c)) eqn:Htest; [|apply Emits_throw].
  destruct (hasTest_typeToText _ Htest) as (kind & Hkind & Hin).
  rewrite Hkind. apply Emits_when. apply Emits_report.
  simpl in Hin.
  destruct Hin as [<-|[<-|[<-|[<-|[]]]]]; reflexivity.
Qed.

Lemma listener_wellFormed l c :
  In l (listeners getTypeAtLocation allowVariableAnnotationFromAny) ->
  Emits (fun d => wellFormed d = true) (snd l c).
Proof.
  unfold listeners. simpl. intros H.
  repeat (destruct H as [H|H]; [subst l; simpl|]); try contradiction;
    try apply on_booleanTest_wellFormed;
    unfold_handlers;
    repeat first
      [ (eapply Emits_impl; [|apply checkDestructuringPattern_Emits]);
        intros [a m dt] (Hm & Hd & _); simpl in Hm, Hd; subst;
        reflexivity
      | emits_step ];
    reflexivity.
Qed.

(** What every listener satisfies, entering a node satisfies. *)
Lemma enterNode_Emits (I : diagnostic -> Prop) c :
  (forall l,
      In l (listeners getTypeAtLocation allowVariableAnnotationFromAny) ->
      Emits I (snd l c)) ->
  Emits I (enterNode getTypeAtLocation allowVariableAnnotationFromAny c).
Proof.
  intros H. unfold enterNode. apply Emits_forEachFrom.
  apply Forall_forall. intros l Hl _. unfold fire.
  apply Emits_when. now apply H.
Qed.

Lemma enterNode_wellFormed c :
  Emits (fun d => wellFormed d = true)
    (enterNode getTypeAtLocation allowVariableAnnotationFromAny c).
Proof.
  apply enterNode_Emits. intros l Hl. now apply listener_wellFormed.
Qed.

End Reports.

(** C8. Every diagnostic emitted during a traversal, also one emitted
    before a throw, carries one of the 14 message identifiers and every
    placeholder of its message: [typeName] for typeReferenceResolvesToAny,
    [kind] for the two let-variable messages and for booleanTestIsAny,
    whose [kind] is one of if, while, do while and ternary. *)
Theorem emitted_diagnostics_wellFormed :
  forall getTypeAtLocation allowVariableAnnotationFromAny body,
    List.length MessageIds_all = 14 /\
    Forall (fun d => wellFormed d = true)
      (emitted (lint getTypeAtLocation allowVariableAnnotationFromAny body)).
Proof.
  intros. split; [reflexivity|].
  unfold lint.
  apply (traverse_Emits getTypeAtLocation allowVariableAnnotationFromAny
           (fun _ d => wellFormed d = true)); auto.
  intros c. apply enterNode_wellFormed.
Qed.

(** ** Where a report is anchored

    Every report made on entering a node is anchored at the node, at one
    of its children, below it (the leaves of a destructuring pattern) or,
    for the two declaration messages, at its parent, and then one of the
    listeners on the [id] or the [init] of a declarator has fired. *)

Lemma parent_at c p : parent c = Some p -> at_ p = tl (at_ c).
Proof.
  unfold parent. destruct (ancestors c); [discriminate|].
  intros H. injection H as <-. reflexivity.
Qed.

Section Origin.

Variable getTypeAtLocation : path -> ts.Type_.
Variable allowVariableAnnotationFromAny : bool.

Lemma fire_origin l c :
  In l (listeners getTypeAtLocation allowVariableAnnotationFromAny) ->
  Emits (origin c) (fire l c).
Proof.
  unfold listeners. simpl. intros H. unfold fire.
  repeat (destruct H as [H|H]; [subst l; cbn [fst snd]|]);
    try contradiction;
    (destruct (matches _ c) eqn:Hmatch; [|apply Emits_ret]);
    cbn [when]; unfold_handlers;
    repeat first
      [ (eapply Emits_impl; [|apply checkDestructuringPattern_Emits]);
        intros [a m dt] (Hm & Hd & Hl); simpl in Hm, Hd, Hl; subst;
        exact Hl
      | emits_step ];
    unfold origin; cbn [messageId node childPath];
    try reflexivity; try (eexists; reflexivity);
    (split;
     [ now apply parent_at
     | unfold reportsForParent; rewrite Hmatch;
       now rewrite ?orb_true_r ]).
Qed.

Lemma enterNode_origin c :
  Emits (origin c)
    (enterNode getTypeAtLocation allowVariableAnnotationFromAny c).
Proof.
  unfold enterNode. apply Emits_forEachFrom.
  apply Forall_forall. intros l Hl _. now apply fire_origin.
Qed.

End Origin.

Lemma origin_notAbove c d : origin c d -> notAbove (List.length (at_ c)) d.
Proof.
  unfold origin, notAbove.
  destruct (messageId d); intros H;
    repeat match goal with
           | H : _ /\ _ |- _ => destruct H
           | H : exists _, _ |- _ => destruct H
           end;
    match goal with H : node d = _ |- _ => rewrite H end;
    try rewrite length_app; simpl; try lia.
  all: destruct (at_ c); simpl; lia.
Qed.

(** A report anchored at the parent of the entered node comes from one of
    the listeners on the [id] or the [init] of a declarator. *)
Lemma origin_parent (c : cursor) (d : diagnostic) (k : step) (here : path) :
  at_ c = k :: here -> origin c d -> node d = here ->
  reportsForParent c = true.
Proof.
  intros Hat Ho Hn. unfold origin in Ho. rewrite Hat, Hn in Ho.
  destruct (messageId d);
    repeat match goal with
           | H : _ /\ _ |- _ => destruct H
           | H : exists _, _ |- _ => destruct H
           end;
    try assumption;
    match goal with
    | H : here = _ |- _ => apply (f_equal (@List.length step)) in H
    end;
    try rewrite length_app in *; simpl in *; lia.
Qed.

(** ** The reports anchored at one node *)

Lemma path_eqb_eq a b : path_eqb a b = true <-> a = b.
Proof.
  revert b. induction a as [|[k i] a IH]; intros [|[k' i'] b]; simpl;
    try (split; (reflexivity || discriminate)).
  unfold step_eqb. simpl.
  rewrite !andb_true_iff, String.eqb_eq, Nat.eqb_eq, IH.
  split.
  - intros [[-> ->] ->]. reflexivity.
  - intros H. injection H as -> -> ->. auto.
Qed.

Lemma path_eqb_refl a : path_eqb a a = true.
Proof. now apply path_eqb_eq. Qed.

Lemma anchoredAt_app p ds ds' :
  anchoredAt p (ds ++ ds') = anchoredAt p ds ++ anchoredAt p ds'.
Proof. apply filter_app. Qed.

Lemma anchoredAt_none p ds :
  Forall (fun d => node d <> p) ds -> anchoredAt p ds = [].
Proof.
  induction 1 as [|d ds Hd _ IH]; simpl; [reflexivity|].
  destruct (path_eqb (node d) p) eqn:E; [|assumption].
  apply path_eqb_eq in E. contradiction.
Qed.

Lemma anchoredAt_bind {A B : Type} p (m : M A) (f : A -> M B) :
  Framed m -> (forall a, Framed (f a)) ->
  anchoredAt p (emitted (bind m f)) =
  anchoredAt p (emitted m)
  ++ match outcome m with
     | Ok a => anchoredAt p (emitted (f a))
     | Throw _ => []
     end.
Proof.
  intros Hm Hf. rewrite emitted_bind by assumption.
  rewrite anchoredAt_app. now destruct (outcome m).
Qed.

Section AnchoredAt.

Variable getTypeAtLocation : path -> ts.Type_.
Variable allowVariableAnnotationFromAny : bool.

(** The children of a node that sits at [here] report nothing at a
    node above [here]; at [here] itself only the listeners of
    [reportsForParent] can. *)
Lemma walkChildren_notAbove here above n children :
  Emits (notAbove (S (List.length here)))
    (walkChildren getTypeAtLocation allowVariableAnnotationFromAny
       here above n children).
Proof.
  apply (walkChildren_Emits getTypeAtLocation
           allowVariableAnnotationFromAny notAbove).
  - unfold notAbove. intros. lia.
  - intros c. eapply Emits_impl; [apply origin_notAbove|].
    apply enterNode_origin.
Qed.

Lemma anchoredAt_traverse_child k here above t :
  anchoredAt here
    (emitted (traverse getTypeAtLocation allowVariableAnnotationFromAny
                (k :: here) above t))
  = match t with
    | Tree n _ =>
        anchoredAt here
          (emitted (enterNode getTypeAtLocation
                      allowVariableAnnotationFromAny
                      (mkCursor n (k :: here) above)))
    end.
Proof.
  destruct t as [n children]. rewrite traverse_unfold.
  rewrite anchoredAt_bind.
  - rewrite (anchoredAt_none here
               (emitted (walkChildren _ _ (k :: here) above n children))).
    + destruct (outcome _); now rewrite app_nil_r.
    + eapply Forall_impl; [|apply walkChildren_notAbove].
      unfold notAbove. simpl. intros d Hd E. rewrite E in Hd. lia.
  - apply Framed_enterNode.
  - intros _. apply walkChildren_notAbove.
Qed.

Lemma anchoredAt_enterNode_child c k here :
  at_ c = k :: here ->
  reportsForParent c = false ->
  anchoredAt here
    (emitted (enterNode getTypeAtLocation allowVariableAnnotationFromAny c))
  = [].
Proof.
  intros Hat Hno. apply anchoredAt_none.
  eapply Forall_impl; [|apply enterNode_origin].
  intros d Ho E. rewrite (origin_parent c d k here Hat Ho E) in Hno.
  discriminate.
Qed.

End AnchoredAt.

(** ** Entering one node: which listeners fire *)

Lemma Skip_ret : Skip (ret tt).
Proof. intros s. reflexivity. Qed.

Lemma Skip_bind (m : M unit) (k : unit -> M unit) :
  Skip m -> (forall a, Skip (k a)) -> Skip (bind m k).
Proof. intros Hm Hk s. unfold bind. rewrite Hm. apply Hk. Qed.

Lemma bind_Skip (m k : M unit) : Skip k -> forall s, (m ;; k) s = m s.
Proof.
  intros Hk s. unfold bind. destruct (m s) as [s' [[]|e]]; [apply Hk|reflexivity].
Qed.

Lemma emitted_bind_Skip (m k : M unit) :
  Skip k -> emitted (m ;; k) = emitted m.
Proof. intros Hk. unfold emitted. now rewrite bind_Skip. Qed.

Lemma outcome_bind_Skip (m k : M unit) :
  Skip k -> outcome (m ;; k) = outcome m.
Proof. intros Hk. unfold outcome. now rewrite bind_Skip. Qed.

Lemma emitted_Skip (k : M unit) : Skip k -> emitted k = [].
Proof. intros Hk. unfold emitted. now rewrite Hk. Qed.

Lemma outcome_Skip (k : M unit) : Skip k -> outcome k = Ok tt.
Proof. intros Hk. unfold outcome. now rewrite Hk. Qed.

Ltac skip := repeat first [apply Skip_ret | apply Skip_bind; [|intros ?]].

Lemma ret_bind {A B : Type} (a : A) (f : A -> M B) : bind (ret a) f = f a.
Proof. reflexivity. Qed.

Ltac unfold_selectors :=
  unfold sel_TSTypeReference, sel_letDeclaratorWithoutInit,
    sel_letDeclaratorWithInit, sel_declaratorIdentifier,
    sel_declaratorEmptyArray, sel_declaratorObjectPattern,
    sel_declaratorArrayPattern, sel_forOfDeclarator, sel_ReturnStatement,
    sel_arrowBody, sel_CallExpression, sel_AssignmentExpression,
    sel_UpdateExpression, sel_booleanTest, sel_SwitchStatement,
    sel_SwitchCase, declarationIsLetOrVar, declaratorWithInit.

(** The selectors of the table evaluated on the cursor of the goal; the
    handlers of those that match are left in place. *)
Ltac dispatch :=
  unfold enterNode, listeners, forEach, forEachFrom, fire;
  cbn [fst snd]; unfold_selectors;
  cbn -[on_TSTypeReference on_letDeclaratorWithoutInit
        on_letDeclaratorWithInit on_declaratorIdentifier
        on_declaratorEmptyArray on_declaratorPattern on_forOfDeclarator
        on_ReturnStatement on_arrowBody on_CallExpression
        on_AssignmentExpression on_UpdateExpression on_booleanTest
        on_SwitchStatement on_SwitchCase];
  rewrite ?ret_bind.

Section Policies.

Variable getTypeAtLocation : path -> ts.Type_.
Variable allowVariableAnnotationFromAny : bool.

Lemma not_any_nor_any_array tsNode :
  isAnyOrAnyArrayType getTypeAtLocation tsNode = true ->
  negb (isAnyType getTypeAtLocation tsNode)
  && negb (isAnyArrayType getTypeAtLocation tsNode) = false.
Proof.
  unfold isAnyOrAnyArrayType.
  destruct (isAnyType _ _), (isAnyArrayType _ _); simpl; congruence.
Qed.

Lemma reportVariableDeclarationInitialisedToAny_spec id init here above :
  let m := reportVariableDeclarationInitialisedToAny
             allowVariableAnnotationFromAny
             (mkCursor (NDeclarator (VariableDeclarator id init)) here above)
  in
  emitted m
  = declarationReport allowVariableAnnotationFromAny here
      (typeAnnotationOf id)
  /\ outcome m = Ok tt.
Proof.
  unfold reportVariableDeclarationInitialisedToAny, declarationReport.
  simpl. destruct (typeAnnotationOf id) as [written|]; [|split; reflexivity].
  destruct allowVariableAnnotationFromAny; [split; reflexivity|].
  destruct written; split; reflexivity.
Qed.

(** Entering the identifier that a declarator with an initializer
    declares. *)
Lemma enterNode_declared_identifier name annotation init kind
      declarations above here :
  let id := PIdentifier name annotation in
  let entered :=
    enterNode getTypeAtLocation allowVariableAnnotationFromAny
      (mkCursor (NPattern id) (("id", 0) :: here)
         (NDeclarator (VariableDeclarator id (Some init))
          :: NStmt (VariableDeclaration kind declarations) :: above)) in
  emitted entered
  = (if isAnyOrAnyArrayType getTypeAtLocation (("init", 0) :: here)
     then declarationReport allowVariableAnnotationFromAny here annotation
     else [])
  /\ outcome entered = Ok tt.
Proof.
  cbv zeta. dispatch.
  rewrite outcome_bind_Skip, emitted_bind_Skip by skip.
  unfold on_declaratorIdentifier, childPath.
  cbn [parent ancestors focus at_ tl].
  destruct (reportVariableDeclarationInitialisedToAny_spec
              (PIdentifier name annotation) (Some init) here
              (NStmt (VariableDeclaration kind declarations) :: above))
    as [He Ho].
  cbv zeta in He, Ho.
  unfold isAnyOrAnyArrayType.
  destruct (isAnyType getTypeAtLocation (("init", 0) :: here)),
    (isAnyArrayType getTypeAtLocation (("init", 0) :: here));
    cbn [negb andb orb]; rewrite ?He, ?Ho; split; reflexivity.
Qed.

(** Entering the object or array pattern that a declarator with an
    initializer declares. *)
Lemma enterNode_declared_pattern id init kind declarations above here :
  isLeaf id = false ->
  let entered :=
    enterNode getTypeAtLocation allowVariableAnnotationFromAny
      (mkCursor (NPattern id) (("id", 0) :: here)
         (NDeclarator (VariableDeclarator id (Some init))
          :: NStmt (VariableDeclaration kind declarations) :: above)) in
  let walk :=
    checkDestructuringPattern getTypeAtLocation (("id", 0) :: here) id in
  emitted entered
  = (if isAnyOrAnyArrayType getTypeAtLocation (("init", 0) :: here)
     then declarationReport allowVariableAnnotationFromAny here
            (typeAnnotationOf id)
     else emitted walk)
  /\ outcome entered
    = (if isAnyOrAnyArrayType getTypeAtLocation (("init", 0) :: here)
       then Ok tt else outcome walk).
Proof.
  intros Hpattern. cbv zeta.
  destruct id as [n a|properties a|elements a|l r|arg|k v|e];
    try discriminate Hpattern; clear Hpattern;
    dispatch;
    rewrite outcome_bind_Skip, emitted_bind_Skip by skip;
    unfold on_declaratorPattern, childPath;
    cbn [parent ancestors focus at_ tl];
    (destruct (isAnyOrAnyArrayType getTypeAtLocation (("init", 0) :: here));
     [ match goal with
       | |- context [reportVariableDeclarationInitialisedToAny _
                       (mkCursor (NDeclarator (VariableDeclarator ?id ?i))
                          ?h ?ab)] =>
           destruct (reportVariableDeclarationInitialisedToAny_spec
                       id i h ab) as [He Ho];
           cbv zeta in He, Ho; rewrite He, Ho; split; reflexivity
       end
     | split; reflexivity ]).
Qed.

End Policies.

(** C1. When the traversal enters the declared identifier of a declarator
    whose initializer resolves to [any] or [any[]], whatever the keyword of
    the declaration, the reports made are: without a type annotation,
    exactly one variableDeclarationInitialisedToAnyWithoutAnnotation
    anchored at the declarator; with an annotation and the option set,
    none; with the annotation [unknown] and the option unset, none;
    otherwise exactly one variableDeclarationInitialisedToAnyWithAnnotation
    anchored at the declarator. *)
Theorem declared_identifier_initialised_to_any :
  forall getTypeAtLocation allowVariableAnnotationFromAny
         name annotation init kind declarations above here,
    let id := PIdentifier name annotation in
    let entered :=
      enterNode getTypeAtLocation allowVariableAnnotationFromAny
        (mkCursor (NPattern id) (("id", 0) :: here)
           (NDeclarator (VariableDeclarator id (Some init))
            :: NStmt (VariableDeclaration kind declarations) :: above)) in
    isAnyOrAnyArrayType getTypeAtLocation (("init", 0) :: here) = true ->
    outcome entered = Ok tt /\
    emitted entered =
      match annotation with
      | None =>
          [mkDiagnostic here
             variableDeclarationInitialisedToAnyWithoutAnnotation []]
      | Some written =>
          if allowVariableAnnotationFromAny then []
          else
            match written with
            | TSUnknownKeyword => []
            | _ =>
                [mkDiagnostic here
                   variableDeclarationInitialisedToAnyWithAnnotation []]
            end
      end.
Proof.
  intros oracle allow name annotation init kind declarations above here
    id entered Hany.
  subst entered id.
  destruct (enterNode_declared_identifier oracle allow name annotation init
              kind declarations above here) as [He Ho].
  cbv zeta in He, Ho. rewrite He, Ho, Hany. split; reflexivity.
Qed.

(** C2. When the traversal enters an empty array literal that is the
    initializer of a declarator, one
    variableDeclarationInitialisedToAnyWithoutAnnotation is reported,
    anchored at the declarator, if its [id] has no type annotation, and
    nothing is reported if it has one (so no
    variableDeclarationInitialisedToAnyWithAnnotation); neither depends on
    the option or on the types resolved. *)
Theorem empty_array_initialiser :
  forall getTypeAtLocation allowVariableAnnotationFromAny
         id kind declarations above here,
    let init := ArrayExpression [] in
    let entered :=
      enterNode getTypeAtLocation allowVariableAnnotationFromAny
        (mkCursor (NExpr init) (("init", 0) :: here)
           (NDeclarator (VariableDeclarator id (Some init))
            :: NStmt (VariableDeclaration kind declarations) :: above)) in
    outcome entered = Ok tt /\
    emitted entered =
      match typeAnnotationOf id with
      | None =>
          [mkDiagnostic here
             variableDeclarationInitialisedToAnyWithoutAnnotation []]
      | Some _ => []
      end.
Proof.
  intros oracle allow id kind declarations above here init entered.
  subst entered init. dispatch.
  rewrite outcome_bind_Skip, emitted_bind_Skip by skip.
  unfold on_declaratorEmptyArray.
  cbn [parent ancestors focus at_ tl].
  destruct (typeAnnotationOf id); split; reflexivity.
Qed.

(** ** Destructuring patterns *)

Lemma forEachFrom_reports {A : Type} (f : nat -> A -> M unit)
      (g : nat -> A -> list diagnostic) (l : list A) :
  Forall (fun x => forall i,
              Framed (f i x) /\ emitted (f i x) = g i x
              /\ outcome (f i x) = Ok tt) l ->
  forall i,
    emitted (forEachFrom f i l) = flatMapFrom g i l
    /\ outcome (forEachFrom f i l) = Ok tt.
Proof.
  induction 1 as [|x l Hx Hl IH]; intros i; simpl.
  - split; reflexivity.
  - destruct (Hx i) as (Fx & Ex & Ox). destruct (IH (S i)) as (El & Ol).
    assert (Fl : forall a : unit, Framed (forEachFrom f (S i) l)).
    { intros _. apply Framed_forEachFrom.
      eapply Forall_impl; [|exact Hl]. intros y Hy j. apply Hy. }
    rewrite emitted_bind, outcome_bind by assumption.
    rewrite Ox, Ex, El, Ol. split; reflexivity.
Qed.

Lemma flatMapFrom_map_filter {A B C : Type} (f : nat -> A -> list B)
      (keep : B -> bool) (h : B -> C) (l : list A) :
  forall i,
    map h (filter keep (flatMapFrom f i l))
    = flatMapFrom (fun i x => map h (filter keep (f i x))) i l.
Proof.
  induction l as [|x l IH]; intros i; simpl; [reflexivity|].
  now rewrite filter_app, map_app, IH.
Qed.

Section Patterns.

Variable getTypeAtLocation : path -> ts.Type_.
Variable allowVariableAnnotationFromAny : bool.

Lemma checkDestructuringPattern_reports p :
  hasElision p = false ->
  forall here,
    emitted (checkDestructuringPattern getTypeAtLocation here p)
    = leafReports getTypeAtLocation here p
    /\ outcome (checkDestructuringPattern getTypeAtLocation here p) = Ok tt.
Proof.
  induction p as [properties ann IH|elements ann IH|p Hleaf]
    using pattern_walk_ind; intros Hno here.
  - unfold leafReports. simpl. unfold forEach.
    rewrite flatMapFrom_map_filter.
    simpl in Hno.
    apply forEachFrom_reports.
    induction IH as [|prop properties Hprop _ IHps]; constructor.
    + simpl in Hno. apply orb_false_iff in Hno. destruct Hno as [Hp _].
      intros i. split; [|destruct prop; simpl in Hprop; apply (Hprop Hp)].
      destruct prop; apply Framed_checkDestructuringPattern.
    + apply IHps. simpl in Hno. apply orb_false_iff in Hno. tauto.
  - unfold leafReports. simpl. unfold forEach.
    rewrite flatMapFrom_map_filter.
    simpl in Hno.
    apply forEachFrom_reports.
    induction IH as [|el elements Hel _ IHes]; constructor.
    + simpl in Hno. apply orb_false_iff in Hno. destruct Hno as [He _].
      intros i. destruct el as [el|]; [|discriminate He].
      split; [apply Framed_checkDestructuringPattern|].
      simpl in Hel. apply (Hel He).
    + apply IHes. simpl in Hno. apply orb_false_iff in Hno. tauto.
  - unfold leafReports.
    destruct p; try discriminate Hleaf; simpl;
      destruct (isAnyOrAnyArrayType getTypeAtLocation here);
      split; reflexivity.
Qed.

End Patterns.

(** C3, as the code has it. When the traversal enters the object or array
    pattern that a declarator with an initializer declares: if the
    initializer resolves to [any] or [any[]], the reports are those of the
    declaration policy for the whole declarator (one
    variableDeclarationInitialisedToAnyWithoutAnnotation if the pattern has
    no annotation; with an annotation none if the option is set or the
    annotation is [unknown], else one
    variableDeclarationInitialisedToAnyWithAnnotation) and there is no
    report for a leaf; otherwise, for a pattern without elisions in which
    no element with a default value and no rest element binds a pattern
    in its turn, there is one patternVariableDeclarationInitialisedToAny
    for each leaf binding that resolves to [any] or [any[]], anchored at
    the leaf, in the order of the walk, and nothing else, whatever the
    annotation. *)
Theorem destructuring_declarator_reports :
  forall getTypeAtLocation allowVariableAnnotationFromAny
         id init kind declarations above here,
    isLeaf id = false ->
    let entered :=
      enterNode getTypeAtLocation allowVariableAnnotationFromAny
        (mkCursor (NPattern id) (("id", 0) :: here)
           (NDeclarator (VariableDeclarator id (Some init))
            :: NStmt (VariableDeclaration kind declarations) :: above)) in
    if isAnyOrAnyArrayType getTypeAtLocation (("init", 0) :: here) then
      outcome entered = Ok tt /\
      emitted entered =
        declarationReport allowVariableAnnotationFromAny here
          (typeAnnotationOf id)
    else
      hasElision id = false ->
      walkAnswered id = true ->
      outcome entered = Ok tt /\
      emitted entered = leafReports getTypeAtLocation (("id", 0) :: here) id.
Proof.
  intros oracle allow id init kind declarations above here Hpattern entered.
  subst entered.
  destruct (enterNode_declared_pattern oracle allow id init kind declarations
              above here Hpattern) as [He Ho].
  cbv zeta in He, Ho. rewrite He, Ho.
  destruct (isAnyOrAnyArrayType oracle (("init", 0) :: here));
    [split; reflexivity|].
  intros Hno _.
  destruct (checkDestructuringPattern_reports oracle id Hno
              (("id", 0) :: here)) as [Ew Ow].
  rewrite Ew, Ow. split; reflexivity.
Qed.

(** ** Call arguments *)

Section Arguments.

Variable getTypeAtLocation : path -> ts.Type_.
Variable allowVariableAnnotationFromAny : bool.

Lemma argument_reports_from here (arguments : list expr) :
  forall i,
    flatMapFrom
      (fun i (_ : expr) =>
         if isAnyOrAnyArrayType getTypeAtLocation (("arguments", i) :: here)
         then [argumentReport here i] else [])
      i arguments
    = map (argumentReport here)
        (filter (fun i => isAnyOrAnyArrayType getTypeAtLocation
                            (("arguments", i) :: here))
           (seq i (List.length arguments))).
Proof.
  induction arguments as [|a arguments IH]; intros i; simpl; [reflexivity|].
  rewrite IH.
  now destruct (isAnyOrAnyArrayType getTypeAtLocation
                  (("arguments", i) :: here)).
Qed.

Lemma on_CallExpression_reports callee arguments here above :
  let m := on_CallExpression getTypeAtLocation
             (mkCursor (NExpr (CallExpression callee arguments)) here above)
  in
  emitted m
  = map (argumentReport here) (anyArguments getTypeAtLocation here arguments)
  /\ outcome m = Ok tt.
Proof.
  unfold on_CallExpression, anyArguments, childPath, forEach.
  cbn [asExpr focus at_]. cbv zeta.
  rewrite <- argument_reports_from.
  apply forEachFrom_reports.
  apply Forall_forall. intros a _ i.
  destruct (isAnyOrAnyArrayType getTypeAtLocation
              (("arguments", i) :: here));
    (split; [simpl; auto with framed | split; reflexivity]).
Qed.

Lemma origin_argumentsBelow c d :
  origin c d -> argumentsBelow (List.length (at_ c)) d.
Proof.
  unfold origin, argumentsBelow. intros Ho Hm. rewrite Hm in Ho.
  destruct Ho as [i ->]. simpl. lia.
Qed.

Lemma walkChildren_no_argument_reports here above n children :
  filter (isArgumentReportOf here)
    (emitted (walkChildren getTypeAtLocation allowVariableAnnotationFromAny
                here above n children))
  = [].
Proof.
  assert (H : Emits (argumentsBelow (S (List.length here)))
                (walkChildren getTypeAtLocation
                   allowVariableAnnotationFromAny here above n children)).
  { apply (walkChildren_Emits getTypeAtLocation
             allowVariableAnnotationFromAny argumentsBelow).
    - unfold argumentsBelow. intros k d Hd Hm. specialize (Hd Hm). lia.
    - intros c. eapply Emits_impl; [apply origin_argumentsBelow|].
      apply enterNode_origin. }
  destruct H as [_ H].
  induction H as [|d ds Hd _ IH]; simpl; [reflexivity|].
  rewrite IH.
  destruct (isArgumentReportOf here d) eqn:E; [|reflexivity].
  exfalso. unfold isArgumentReportOf in E.
  apply andb_true_iff in E. destruct E as [Hm Hn].
  assert (Hmsg : messageId d = passedArgumentIsAny)
    by (destruct (messageId d); try discriminate Hm; reflexivity).
  specialize (Hd Hmsg).
  destruct (node d) as [|[key i] p]; [discriminate|].
  apply andb_true_iff in Hn. destruct Hn as [_ Hp].
  apply path_eqb_eq in Hp. subst p. simpl in Hd. lia.
Qed.

Lemma when_reports (b : bool) (m : M unit) :
  emitted (when b m) = (if b then emitted m else [])
  /\ outcome (when b m) = if b then outcome m else Ok tt.
Proof. destruct b; split; reflexivity. Qed.

Lemma on_arrowBody_reports c :
  emitted (on_arrowBody getTypeAtLocation c)
  = (if isAnyOrAnyArrayType getTypeAtLocation (at_ c)
     then [mkDiagnostic (at_ c) returnAny []] else [])
  /\ outcome (on_arrowBody getTypeAtLocation c) = Ok tt.
Proof.
  unfold on_arrowBody. cbv zeta.
  destruct (isAnyOrAnyArrayType getTypeAtLocation (at_ c));
    split; reflexivity.
Qed.

Lemma Framed_on_arrowBody c : Framed (on_arrowBody getTypeAtLocation c).
Proof. unfold on_arrowBody. framed. Qed.

Lemma Framed_on_CallExpression c :
  Framed (on_CallExpression getTypeAtLocation c).
Proof. unfold on_CallExpression. framed. Qed.

Lemma argument_reports_kept here is_ :
  filter (isArgumentReportOf here) (map (argumentReport here) is_)
  = map (argumentReport here) is_.
Proof.
  induction is_ as [|i is_ IH]; simpl; [reflexivity|].
  unfold isArgumentReportOf at 1. simpl.
  rewrite path_eqb_refl. simpl. now rewrite IH.
Qed.

End Arguments.

(** C6. In the traversal of a call, the passedArgumentIsAny reports
    anchored at the arguments of that call are exactly one for each
    argument that resolves to [any] or [any[]], anchored at that argument,
    in argument order: N of them when N of the arguments resolve so. *)
Theorem call_arguments_reported :
  forall getTypeAtLocation allowVariableAnnotationFromAny
         callee arguments above here,
    let reports :=
      filter (isArgumentReportOf here)
        (emitted (traverse getTypeAtLocation allowVariableAnnotationFromAny
                    here above (exprTree (CallExpression callee arguments))))
    in
    let N := List.length (anyArguments getTypeAtLocation here arguments) in
    reports = map (argumentReport here)
                (anyArguments getTypeAtLocation here arguments)
    /\ List.length reports = N.
Proof.
  intros oracle allow callee arguments above here reports N.
  assert (E : reports = map (argumentReport here)
                          (anyArguments oracle here arguments)).
  { subst reports. cbn [exprTree]. rewrite traverse_unfold.
    rewrite emitted_bind
      by (try apply Framed_enterNode; intros;
          apply walkChildren_notAbove).
    rewrite filter_app.
    replace (filter (isArgumentReportOf here)
               match outcome _ with
               | Ok _ => emitted (walkChildren oracle allow here above _ _)
               | Throw _ => []
               end) with (@nil diagnostic)
      by (destruct (outcome _);
          [now rewrite walkChildren_no_argument_reports | reflexivity]).
    rewrite app_nil_r.
    dispatch.
    rewrite emitted_bind
      by (intros; auto using Framed_when, Framed_bind, Framed_ret,
            Framed_on_arrowBody, Framed_on_CallExpression).
    rewrite filter_app.
    match goal with
    | |- context [when ?b (on_arrowBody _ ?c)] =>
        destruct (when_reports b (on_arrowBody oracle c)) as [Ea Oa];
        destruct (on_arrowBody_reports oracle c) as [Ea' Oa'];
        rewrite Ea, Oa, Ea', Oa'; cbn [at_];
        replace (filter (isArgumentReportOf here)
                   (if b
                    then if isAnyOrAnyArrayType oracle here
                         then [mkDiagnostic here returnAny []] else []
                    else [])) with (@nil diagnostic)
          by (destruct b, (isAnyOrAnyArrayType oracle here); reflexivity);
        replace (if b then Ok tt else Ok tt) with (@Ok unit tt)
          by (destruct b; reflexivity)
    end.
    cbn [app]. rewrite emitted_bind_Skip by skip.
    destruct (on_CallExpression_reports oracle callee arguments here above)
      as [He Ho]. cbv zeta in He, Ho.
    destruct arguments as [|a arguments]; [reflexivity|].
    replace (0 <? Z.of_nat (List.length (a :: arguments)))%Z
      with true by (symmetry; apply Z.ltb_lt; simpl; lia).
    cbn [andb when]. rewrite He. apply argument_reports_kept. }
  split; [exact E|]. rewrite E. now rewrite length_map.
Qed.

(** ** Update expressions *)

Lemma origin_selfOrBelow c d :
  origin c d -> selfOrBelow (List.length (at_ c)) d.
Proof.
  unfold origin, selfOrBelow.
  destruct (messageId d); intros H Hm; try discriminate Hm;
    repeat match goal with
           | H : exists _, _ |- _ => destruct H
           end;
    match goal with H : node d = _ |- _ => rewrite H end;
    try rewrite length_app; simpl; lia.
Qed.

Section Updates.

Variable getTypeAtLocation : path -> ts.Type_.
Variable allowVariableAnnotationFromAny : bool.

Lemma walkChildren_selfOrBelow here above n children :
  Emits (selfOrBelow (S (List.length here)))
    (walkChildren getTypeAtLocation allowVariableAnnotationFromAny
       here above n children).
Proof.
  apply (walkChildren_Emits getTypeAtLocation
           allowVariableAnnotationFromAny selfOrBelow).
  - unfold selfOrBelow. intros k d Hd Hm. specialize (Hd Hm). lia.
  - intros c. eapply Emits_impl; [apply origin_selfOrBelow|].
    apply enterNode_origin.
Qed.

Lemma walkChildren_no_update_reports here above n children :
  filter (isUpdateReportAt here)
    (emitted (walkChildren getTypeAtLocation allowVariableAnnotationFromAny
                here above n children))
  = [].
Proof.
  destruct (walkChildren_selfOrBelow here above n children) as [_ H].
  induction H as [|d ds Hd _ IH]; simpl; [reflexivity|].
  rewrite IH.
  destruct (isUpdateReportAt here d) eqn:E; [|reflexivity].
  exfalso. unfold isUpdateReportAt in E.
  apply andb_true_iff in E. destruct E as [Hm Hn].
  apply path_eqb_eq in Hn. unfold selfOrBelow in Hd. rewrite Hn in Hd.
  destruct (messageId d); try discriminate Hm.
  specialize (Hd eq_refl). lia.
Qed.

Lemma Framed_on_UpdateExpression c :
  Framed (on_UpdateExpression getTypeAtLocation c).
Proof. unfold on_UpdateExpression. framed. Qed.

End Updates.

(** C7. In the traversal of an update expression, an
    updateExpressionIsAny is reported for it (once, anchored at it) if and
    only if its operand resolves to [any]: the test is [isAnyType] alone,
    so an operand that resolves to [any[]] and not to [any] gives no
    report. *)
Theorem update_expression_reported :
  forall getTypeAtLocation allowVariableAnnotationFromAny
         operator argument above here,
    filter (isUpdateReportAt here)
      (emitted (traverse getTypeAtLocation allowVariableAnnotationFromAny
                  here above
                  (exprTree (UpdateExpression operator argument))))
    = if isAnyType getTypeAtLocation (("argument", 0) :: here)
      then [mkDiagnostic here updateExpressionIsAny []]
      else [].
Proof.
  intros oracle allow operator argument above here.
  cbn [exprTree]. rewrite traverse_unfold.
  rewrite emitted_bind
    by (try apply Framed_enterNode; intros; apply walkChildren_notAbove).
  rewrite filter_app.
  replace (filter (isUpdateReportAt here)
             match outcome _ with
             | Ok _ => emitted (walkChildren oracle allow here above _ _)
             | Throw _ => []
             end) with (@nil diagnostic)
    by (destruct (outcome _);
        [now rewrite walkChildren_no_update_reports | reflexivity]).
  rewrite app_nil_r.
  dispatch.
  rewrite emitted_bind
    by (intros; auto using Framed_when, Framed_bind, Framed_ret,
          Framed_on_arrowBody, Framed_on_UpdateExpression).
  rewrite filter_app.
  match goal with
  | |- context [when ?b (on_arrowBody _ ?c)] =>
      destruct (when_reports b (on_arrowBody oracle c)) as [Ea Oa];
      destruct (on_arrowBody_reports oracle c) as [Ea' Oa'];
      rewrite Ea, Oa, Ea', Oa'; cbn [at_];
      replace (filter (isUpdateReportAt here)
                 (if b
                  then if isAnyOrAnyArrayType oracle here
                       then [mkDiagnostic here returnAny []] else []
                  else [])) with (@nil diagnostic)
        by (destruct b, (isAnyOrAnyArrayType oracle here); reflexivity);
      replace (if b then Ok tt else Ok tt) with (@Ok unit tt)
        by (destruct b; reflexivity)
  end.
  cbn [app]. rewrite emitted_bind_Skip by skip.
  unfold on_UpdateExpression, childPath. cbn [asExpr focus at_].
  destruct (isAnyType oracle (("argument", 0) :: here)); simpl;
    [unfold isUpdateReportAt; simpl; now rewrite path_eqb_refl | reflexivity].
Qed.

(** ** The reports for one declarator *)

Lemma anchoredAt_bind_silent {A B : Type} p (m : M A) (f : A -> M B) :
  Framed m -> (forall a, Framed (f a)) ->
  (forall a, anchoredAt p (emitted (f a)) = []) ->
  anchoredAt p (emitted (bind m f)) = anchoredAt p (emitted m).
Proof.
  intros Hm Hf Hnone. rewrite anchoredAt_bind by assumption.
  destruct (outcome m); [rewrite Hnone|]; apply app_nil_r.
Qed.

Section Declarators.

Variable getTypeAtLocation : path -> ts.Type_.
Variable allowVariableAnnotationFromAny : bool.

Lemma Framed_on_forOfDeclarator c :
  Framed (on_forOfDeclarator getTypeAtLocation c).
Proof. unfold on_forOfDeclarator. framed. Qed.

(** Entering a declarator of a [let] or [var] declaration whose [id] has
    no annotation. *)
Lemma enterNode_let_declarator id init kind declarations above here :
  kind = Klet \/ kind = Kvar ->
  typeAnnotationOf id = None ->
  let c := mkCursor (NDeclarator (VariableDeclarator id init)) here
             (NStmt (VariableDeclaration kind declarations) :: above) in
  let entered :=
    enterNode getTypeAtLocation allowVariableAnnotationFromAny c in
  emitted entered = letReport here kind init ++ loopReport getTypeAtLocation c
  /\ outcome entered = Ok tt.
Proof.
  intros Hkind Hann c entered. subst entered.
  unfold loopReport, letReport.
  unfold enterNode, listeners, forEach, forEachFrom, fire. cbn [fst snd].
  remember (matches sel_forOfDeclarator c) as loop eqn:Hloop.
  subst c. unfold_selectors.
  cbn -[on_letDeclaratorWithoutInit on_letDeclaratorWithInit
        on_forOfDeclarator on_arrowBody].
  rewrite ?andb_false_r, ?andb_true_r, ?orb_false_r.
  cbn [when]. rewrite ?ret_bind.
  unfold on_letDeclaratorWithoutInit, on_letDeclaratorWithInit,
    on_forOfDeclarator, parentKind.
  cbn [focus parent ancestors at_]. rewrite Hann.
  destruct Hkind as [-> | ->];
    (destruct init as [init|];
     [ destruct (isNullLiteral (Some init)
                 || isUndefinedIdentifier (Some init))
     | ]);
    cbn [optionValue negb andb orb when kindText String.eqb Ascii.eqb
         Bool.eqb letReport];
    rewrite ?ret_bind;
    destruct loop;
    destruct (isAnyOrAnyArrayType getTypeAtLocation here);
    split; reflexivity.
Qed.

(** The walk of a pattern reports nothing at the declarator. *)
Lemma anchoredAt_checkDestructuringPattern here key id :
  anchoredAt here
    (emitted (checkDestructuringPattern getTypeAtLocation (key :: here) id))
  = [].
Proof.
  apply anchoredAt_none.
  eapply Forall_impl; [|apply checkDestructuringPattern_Emits].
  intros d (_ & _ & l & Hl) E. rewrite E in Hl.
  apply (f_equal (@List.length step)) in Hl.
  rewrite length_app in Hl. simpl in Hl. lia.
Qed.

(** What entering the declared name reports at the declarator. *)
Lemma anchoredAt_enter_declared_name id init kind declarations above here :
  isBindingName id = true ->
  typeAnnotationOf id = None ->
  anchoredAt here
    (emitted
       (enterNode getTypeAtLocation allowVariableAnnotationFromAny
          (mkCursor (NPattern id) (("id", 0) :: here)
             (NDeclarator (VariableDeclarator id init)
              :: NStmt (VariableDeclaration kind declarations) :: above))))
  = initReport getTypeAtLocation here init.
Proof.
  intros Hname Hann. destruct init as [init|].
  - unfold initReport.
    destruct id as [n a|properties a|elements a|l r|arg|k v|e];
      try discriminate Hname; simpl in Hann; subst a.
    + destruct (enterNode_declared_identifier getTypeAtLocation
                  allowVariableAnnotationFromAny n None init kind
                  declarations above here) as [He _].
      cbv zeta in He. rewrite He.
      destruct (isAnyOrAnyArrayType getTypeAtLocation (("init", 0) :: here));
        [|reflexivity].
      unfold declarationReport, anchoredAt. simpl.
      now rewrite path_eqb_refl.
    + destruct (enterNode_declared_pattern getTypeAtLocation
                  allowVariableAnnotationFromAny (ObjectPattern properties None)
                  init kind declarations above here eq_refl) as [He _].
      cbv zeta in He. rewrite He.
      destruct (isAnyOrAnyArrayType getTypeAtLocation (("init", 0) :: here));
        [|apply anchoredAt_checkDestructuringPattern].
      unfold declarationReport, anchoredAt. simpl.
      now rewrite path_eqb_refl.
    + destruct (enterNode_declared_pattern getTypeAtLocation
                  allowVariableAnnotationFromAny (ArrayPattern elements None)
                  init kind declarations above here eq_refl) as [He _].
      cbv zeta in He. rewrite He.
      destruct (isAnyOrAnyArrayType getTypeAtLocation (("init", 0) :: here));
        [|apply anchoredAt_checkDestructuringPattern].
      unfold declarationReport, anchoredAt. simpl.
      now rewrite path_eqb_refl.
  - apply anchoredAt_enterNode_child with (k := ("id", 0)); [reflexivity|].
    destruct id; try discriminate Hname; reflexivity.
Qed.

(** What the walk of the [id] and the [init] of a declarator reports at
    the declarator, where the initializer is absent, [null] or
    [undefined]. *)
Lemma anchoredAt_declarator_children id init kind declarations above here :
  isBindingName id = true ->
  typeAnnotationOf id = None ->
  init = None \/ isNullLiteral init || isUndefinedIdentifier init = true ->
  anchoredAt here
    (emitted
       (walkChildren getTypeAtLocation allowVariableAnnotationFromAny
          here (NStmt (VariableDeclaration kind declarations) :: above)
          (NDeclarator (VariableDeclarator id init))
          (single "id" (patternTree id) ++ optional "init" exprTree init)))
  = initReport getTypeAtLocation here init.
Proof.
  intros Hname Hann Hinit.
  pose proof (anchoredAt_enter_declared_name id init kind declarations
                above here Hname Hann) as Hid.
  assert (Htree : patternTree id
                  = Tree (NPattern id)
                      match patternTree id with Tree _ ch => ch end)
    by (destruct id; try discriminate Hname; reflexivity).
  unfold walkChildren, forEach, single.
  destruct init as [init|]; cbn [optional single app forEachFrom fst snd].
  - rewrite anchoredAt_bind_silent.
    + rewrite anchoredAt_traverse_child, Htree. exact Hid.
    + apply Framed_traverse.
    + intros _. apply Framed_bind; [apply Framed_traverse|].
      intros _. apply Framed_ret.
    + intros _. rewrite anchoredAt_bind_silent;
        [ | apply Framed_traverse | intros _; apply Framed_ret
          | reflexivity ].
      rewrite anchoredAt_traverse_child.
      destruct Hinit as [Hinit|Hinit]; [discriminate Hinit|].
      destruct init; try discriminate Hinit; cbn [exprTree];
        (apply anchoredAt_enterNode_child with (k := ("init", 0));
         reflexivity).
  - rewrite anchoredAt_bind_silent;
      [ | apply Framed_traverse | intros _; apply Framed_ret
        | reflexivity ].
    rewrite anchoredAt_traverse_child, Htree. exact Hid.
Qed.

End Declarators.

(** The reports of a traversal anchored at a declarator of a [let] or
    [var] declaration whose declared name has no annotation and whose
    initializer is absent, [null] or [undefined]: the let report, the
    report of the loop-variable listener and the report of the
    declaration policy for the initializer. *)
Lemma let_declarator_reports_in_all :
  forall getTypeAtLocation allowVariableAnnotationFromAny
         id init kind declarations above here,
    kind = Klet \/ kind = Kvar ->
    isBindingName id = true ->
    typeAnnotationOf id = None ->
    init = None \/ isNullLiteral init || isUndefinedIdentifier init = true ->
    let declaration := NStmt (VariableDeclaration kind declarations) in
    let c := mkCursor (NDeclarator (VariableDeclarator id init)) here
               (declaration :: above) in
    let forDeclarator :=
      anchoredAt here
        (emitted (traverse getTypeAtLocation allowVariableAnnotationFromAny
                    here (declaration :: above)
                    (declaratorTree (VariableDeclarator id init)))) in
    let letDiagnostic :=
      mkDiagnostic here
        match init with
        | None => letVariableWithNoInitialAndNoAnnotation
        | Some _ => letVariableInitialisedToNullishAndNoAnnotation
        end
        [("kind", Some (kindText kind))] in
    Permutation forDeclarator
      (letDiagnostic
         :: loopReport getTypeAtLocation c
         ++ initReport getTypeAtLocation here init).
Proof.
  intros oracle allow id init kind declarations above here
    Hkind Hname Hann Hinit declaration c forDeclarator letDiagnostic.
  assert (E : forDeclarator
              = letDiagnostic :: loopReport oracle c
                                 ++ initReport oracle here init).
  { subst forDeclarator. cbn [declaratorTree]. rewrite traverse_unfold.
    destruct (enterNode_let_declarator oracle allow id init kind declarations
                above here Hkind Hann) as [He Ho].
    cbv zeta in He, Ho. fold declaration in He, Ho. fold c in He, Ho.
    rewrite anchoredAt_bind
      by (try apply Framed_enterNode; intros; apply walkChildren_notAbove).
    fold c. rewrite He, Ho.
    subst declaration.
    rewrite (anchoredAt_declarator_children oracle allow id init kind
               declarations above here Hname Hann Hinit).
    rewrite anchoredAt_app.
    assert (Hlet : anchoredAt here (letReport here kind init)
                   = [letDiagnostic]).
    { subst letDiagnostic. unfold letReport, anchoredAt.
      destruct Hinit as [-> | Hinit].
      - simpl. now rewrite path_eqb_refl.
      - rewrite Hinit. destruct init; [|discriminate Hinit].
        simpl. now rewrite path_eqb_refl. }
    assert (Hloop : anchoredAt here (loopReport oracle c)
                    = loopReport oracle c).
    { unfold loopReport, anchoredAt. subst c. cbn [at_].
      destruct (_ && _); simpl; [now rewrite path_eqb_refl | reflexivity]. }
    rewrite Hlet, Hloop. reflexivity. }
  rewrite E. apply Permutation_refl.
Qed.


(** ** The casts of the handlers are safe

    [WellTyped m]: [m] is framed and does not end in [IllTyped].  Every
    selector lets through only nodes of the type its handler declares. *)

Lemma WellTyped_ret {A : Type} (a : A) : WellTyped (ret a).
Proof. split; [apply Framed_ret | discriminate]. Qed.

Lemma WellTyped_throw {A : Type} (e : error) :
  e <> IllTyped -> WellTyped (@throw A e).
Proof.
  intros H. split; [apply Framed_throw|].
  unfold outcome. simpl. congruence.
Qed.

Lemma WellTyped_report (d : diagnostic) : WellTyped (report d).
Proof. split; [apply Framed_report | discriminate]. Qed.

Lemma WellTyped_bind {A B : Type} (m : M A) (f : A -> M B) :
  WellTyped m -> (forall a, WellTyped (f a)) -> WellTyped (bind m f).
Proof.
  intros [Fm Hm] Hf. split.
  - apply Framed_bind; [assumption | intros a; apply Hf].
  - rewrite outcome_bind by (assumption || intros a; apply Hf).
    destruct (outcome m) eqn:E; [apply Hf | congruence].
Qed.

Lemma WellTyped_when (b : bool) (m : M unit) :
  WellTyped m -> WellTyped (when b m).
Proof. destruct b; simpl; auto using WellTyped_ret. Qed.

Lemma WellTyped_nullThrows {A : Type} (o : option A) :
  WellTyped (nullThrows o).
Proof.
  destruct o; simpl;
    [apply WellTyped_ret | apply WellTyped_throw; discriminate].
Qed.

Lemma WellTyped_forEachFrom {A : Type} (f : nat -> A -> M unit) (l : list A) :
  Forall (fun x => forall i, WellTyped (f i x)) l ->
  forall i, WellTyped (forEachFrom f i l).
Proof.
  induction 1 as [|x l Hx _ IH]; intros i; simpl.
  - apply WellTyped_ret.
  - apply WellTyped_bind; auto.
Qed.

Lemma WellTyped_forEach {A : Type} (f : nat -> A -> M unit) (l : list A) :
  (forall i x, WellTyped (f i x)) -> WellTyped (forEach f l).
Proof.
  intros H. apply WellTyped_forEachFrom. apply Forall_forall. auto.
Qed.

Ltac unfold_selectors_in H :=
  unfold sel_TSTypeReference, sel_letDeclaratorWithoutInit,
    sel_letDeclaratorWithInit, sel_declaratorIdentifier,
    sel_declaratorEmptyArray, sel_declaratorObjectPattern,
    sel_declaratorArrayPattern, sel_forOfDeclarator, sel_ReturnStatement,
    sel_arrowBody, sel_CallExpression, sel_AssignmentExpression,
    sel_UpdateExpression, sel_booleanTest, sel_SwitchStatement,
    sel_SwitchCase, declarationIsLetOrVar, declaratorWithInit in H.

(** From [H : matches sel c = true] to the shape of the node and of its
    parent: case analysis on whatever [H] is stuck on. *)
Ltac shapes H :=
  repeat first
    [ discriminate H
    | match type of H with
      | context [parent _] => unfold parent in H; cbn in H
      | context [fieldOf _] => unfold fieldOf in H; cbn in H
      | context [stmtType ?s] => is_var s; destruct s; cbn in H
      | context [exprType ?e] => is_var e; destruct e; cbn in H
      | context [patternType ?p] => is_var p; destruct p; cbn in H
      | context [typeNodeType ?t] => is_var t; destruct t; cbn in H
      | context [nodeType ?n] => is_var n; destruct n; cbn in H
      | context [optionValue ?o] => is_var o; destruct o; cbn in H
      | context [match ?l with [] => _ | _ :: _ => _ end] =>
          is_var l; destruct l; cbn in H
      | context [match ?x with _ => _ end] => is_var x; destruct x; cbn in H
      | _ => progress (rewrite ?andb_false_r in H)
      end ].

Ltac welltyped_step :=
  match goal with
  | |- WellTyped (ret _) => apply WellTyped_ret
  | |- WellTyped (throw IllTyped) => fail 1
  | |- WellTyped (throw _) => apply WellTyped_throw; discriminate
  | |- WellTyped (report _) => apply WellTyped_report
  | |- WellTyped (nullThrows _) => apply WellTyped_nullThrows
  | |- WellTyped (when _ _) => apply WellTyped_when
  | |- WellTyped (bind _ _) => apply WellTyped_bind; [|intros ?]
  | |- WellTyped (forEach _ _) => apply WellTyped_forEach; intros ? ?
  | |- WellTyped (match ?x with _ => _ end) => destruct x eqn:?
  | |- WellTyped (if ?b then _ else _) => destruct b eqn:?
  | |- WellTyped (let _ := _ in _) => cbv zeta
  end.

Section WellTypedDispatch.

Variable getTypeAtLocation : path -> ts.Type_.
Variable allowVariableAnnotationFromAny : bool.

Lemma WellTyped_checkDestructuringPattern p :
  forall here,
    WellTyped (checkDestructuringPattern getTypeAtLocation here p).
Proof.
  induction p as [properties ann IH|elements ann IH|p Hleaf]
    using pattern_walk_ind; intros here.
  - simpl. apply WellTyped_forEachFrom.
    eapply Forall_impl; [|exact IH].
    intros prop Hprop i. destruct prop; simpl in Hprop; apply Hprop.
  - simpl. apply WellTyped_forEachFrom.
    eapply Forall_impl; [|exact IH].
    intros el Hel i. destruct el; simpl in Hel;
      [apply Hel | apply WellTyped_throw; discriminate].
  - destruct p; try discriminate Hleaf; simpl;
      (apply WellTyped_when; apply WellTyped_report).
Qed.

Lemma fire_WellTyped l c :
  In l (listeners getTypeAtLocation allowVariableAnnotationFromAny) ->
  WellTyped (fire l c).
Proof.
  unfold listeners. simpl. intros H. unfold fire.
  destruct c as [f p anc].
  repeat (destruct H as [H|H]; [subst l; cbn [fst snd]|]);
    try contradiction;
    (destruct (matches _ _) eqn:Hmatch; [|apply WellTyped_ret]);
    cbn [when];
    try (unfold on_arrowBody, on_forOfDeclarator;
         apply WellTyped_when; apply WellTyped_report);
    unfold_selectors_in Hmatch; cbn in Hmatch;
    shapes Hmatch;
    unfold_handlers; unfold parentKind, hasTest, parent;
    cbn [focus at_ ancestors asExpr];
    repeat first
      [ apply WellTyped_checkDestructuringPattern
      | welltyped_step ].
Qed.

Lemma enterNode_WellTyped c :
  WellTyped (enterNode getTypeAtLocation allowVariableAnnotationFromAny c).
Proof.
  unfold enterNode. apply WellTyped_forEachFrom.
  apply Forall_forall. intros l Hl _. now apply fire_WellTyped.
Qed.

Lemma traverse_WellTyped t :
  forall here above,
    WellTyped (traverse getTypeAtLocation allowVariableAnnotationFromAny
                 here above t).
Proof.
  induction t as [n children IH] using tree_walk_ind; intros here above.
  rewrite traverse_unfold. apply WellTyped_bind.
  - apply enterNode_WellTyped.
  - intros _. unfold walkChildren. apply WellTyped_forEachFrom.
    eapply Forall_impl; [|exact IH].
    intros kt Hkt _. apply Hkt.
Qed.

(** No traversal ends in [IllTyped]: a throw is a TypeError of the
    source. *)
Lemma lint_WellTyped body :
  outcome (lint getTypeAtLocation allowVariableAnnotationFromAny body)
  <> Throw IllTyped.
Proof. apply traverse_WellTyped. Qed.

End WellTypedDispatch.

(** * Further properties of the listeners *)

(** ** The reports of one listener in a traversal *)

Lemma MessageIds_eqb_eq a b : MessageIds_eqb a b = true <-> a = b.
Proof. destruct a, b; simpl; split; congruence. Qed.

Lemma isReportAt_true m here d :
  isReportAt m here d = true -> messageId d = m /\ node d = here.
Proof.
  unfold isReportAt. rewrite andb_true_iff, MessageIds_eqb_eq, path_eqb_eq.
  auto.
Qed.

Lemma isReportAt_refl m here dt :
  isReportAt m here (mkDiagnostic here m dt) = true.
Proof.
  unfold isReportAt. simpl. rewrite path_eqb_refl.
  now destruct m.
Qed.

Lemma filter_none {A : Type} (keep : A -> bool) (P : A -> Prop) l :
  Forall P l -> (forall x, P x -> keep x = false) -> filter keep l = [].
Proof.
  intros H Hk. induction H as [|x l Hx _ IH]; simpl; [reflexivity|].
  now rewrite (Hk x Hx).
Qed.

Lemma origin_childrenBelow c d :
  origin c d -> childrenBelow (List.length (at_ c)) d.
Proof.
  unfold origin, childrenBelow.
  destruct (messageId d); intros H Hm; try discriminate Hm;
    repeat match goal with
           | H : exists _, _ |- _ => destruct H
           end;
    match goal with H : node d = _ |- _ => rewrite H end;
    simpl; lia.
Qed.

Lemma filter_other_message m here (r : M unit) :
  Emits (fun d => messageId d <> m) r ->
  filter (isReportAt m here) (emitted r) = [].
Proof.
  intros [_ H]. eapply filter_none; [exact H|].
  intros d Hd. destruct (isReportAt m here d) eqn:E; [|reflexivity].
  apply isReportAt_true in E. destruct E as [E _]. now apply Hd in E.
Qed.

Lemma filter_arrow_other m here (b : bool) p :
  m <> returnAny ->
  filter (isReportAt m here)
    (if b then [mkDiagnostic p returnAny []] else []) = [].
Proof.
  intros Hm. destruct b; [|reflexivity]. simpl.
  destruct (isReportAt m here _) eqn:E; [|reflexivity].
  apply isReportAt_true in E. simpl in E. destruct E as [E _]. congruence.
Qed.

(** One listener that fires and returns, then the rest of the table. *)
Lemma emitted_fired (b : bool) (m k : M unit) :
  Framed m -> Framed k -> outcome m = Ok tt ->
  emitted (when b m ;; k) = (if b then emitted m else []) ++ emitted k.
Proof.
  intros Fm Fk Om.
  rewrite emitted_bind by (auto using Framed_when).
  destruct b; simpl; [now rewrite Om | reflexivity].
Qed.

Section ReportsAt.

Variable getTypeAtLocation : path -> ts.Type_.
Variable allowVariableAnnotationFromAny : bool.

Lemma walkChildren_childrenBelow here above n children :
  Emits (childrenBelow (S (List.length here)))
    (walkChildren getTypeAtLocation allowVariableAnnotationFromAny
       here above n children).
Proof.
  apply (walkChildren_Emits getTypeAtLocation
           allowVariableAnnotationFromAny childrenBelow).
  - unfold childrenBelow. intros k d Hd Hm. specialize (Hd Hm). lia.
  - intros c. eapply Emits_impl; [apply origin_childrenBelow|].
    apply enterNode_origin.
Qed.

(** The reports of a traversal anchored at its root, other than the two
    declaration messages, are those of entering the root. *)
Lemma reports_at_root m here above n children :
  isDeclarationMessage m = false ->
  filter (isReportAt m here)
    (emitted (traverse getTypeAtLocation allowVariableAnnotationFromAny
                here above (Tree n children)))
  = filter (isReportAt m here)
      (emitted (enterNode getTypeAtLocation allowVariableAnnotationFromAny
                  (mkCursor n here above))).
Proof.
  intros Hm. rewrite traverse_unfold.
  rewrite emitted_bind
    by (try apply Framed_enterNode; intros; apply walkChildren_notAbove).
  rewrite filter_app.
  replace (filter (isReportAt m here)
             match outcome _ with
             | Ok _ => emitted (walkChildren getTypeAtLocation
                                  allowVariableAnnotationFromAny
                                  here above n children)
             | Throw _ => []
             end) with (@nil diagnostic); [apply app_nil_r|].
  destruct (outcome _); [|reflexivity]. symmetry.
  eapply filter_none; [apply walkChildren_selfOrBelow|].
  intros d Hd. destruct (isReportAt m here d) eqn:E; [|reflexivity].
  apply isReportAt_true in E. destruct E as [Em En].
  unfold selfOrBelow in Hd. rewrite Em, En in Hd. specialize (Hd Hm). lia.
Qed.

(** The reports of a traversal that the listener of a node anchors at a
    child of the node are, for the root, those of entering the root. *)
Lemma reports_at_child m key here above n children :
  isChildMessage m = true ->
  filter (isReportAt m (key :: here))
    (emitted (traverse getTypeAtLocation allowVariableAnnotationFromAny
                here above (Tree n children)))
  = filter (isReportAt m (key :: here))
      (emitted (enterNode getTypeAtLocation allowVariableAnnotationFromAny
                  (mkCursor n here above))).
Proof.
  intros Hm. rewrite traverse_unfold.
  rewrite emitted_bind
    by (try apply Framed_enterNode; intros; apply walkChildren_notAbove).
  rewrite filter_app.
  replace (filter (isReportAt m (key :: here))
             match outcome _ with
             | Ok _ => emitted (walkChildren getTypeAtLocation
                                  allowVariableAnnotationFromAny
                                  here above n children)
             | Throw _ => []
             end) with (@nil diagnostic); [apply app_nil_r|].
  destruct (outcome _); [|reflexivity]. symmetry.
  eapply filter_none; [apply walkChildren_childrenBelow|].
  intros d Hd. destruct (isReportAt m (key :: here) d) eqn:E; [|reflexivity].
  apply isReportAt_true in E. destruct E as [Em En].
  unfold childrenBelow in Hd. rewrite Em, En in Hd. specialize (Hd Hm).
  simpl in Hd. lia.
Qed.

Lemma emitted_on_arrowBody (b : bool) c (k : M unit) :
  Framed k ->
  emitted (when b (on_arrowBody getTypeAtLocation c) ;; k)
  = (if b && isAnyOrAnyArrayType getTypeAtLocation (at_ c)
     then [mkDiagnostic (at_ c) returnAny []] else [])
    ++ emitted k.
Proof.
  intros Fk. destruct (on_arrowBody_reports getTypeAtLocation c) as [E O].
  rewrite emitted_fired by (auto using Framed_on_arrowBody).
  rewrite E. now destruct b, (isAnyOrAnyArrayType _ _).
Qed.

Lemma Framed_on_AssignmentExpression c :
  Framed (on_AssignmentExpression getTypeAtLocation c).
Proof. unfold on_AssignmentExpression. framed. Qed.

Lemma Framed_on_booleanTest c :
  Framed (on_booleanTest getTypeAtLocation c).
Proof. unfold on_booleanTest. framed. Qed.

Lemma Framed_on_SwitchStatement c :
  Framed (on_SwitchStatement getTypeAtLocation c).
Proof. unfold on_SwitchStatement. framed. Qed.

Lemma Framed_on_SwitchCase c :
  Framed (on_SwitchCase getTypeAtLocation c).
Proof. unfold on_SwitchCase. framed. Qed.

End ReportsAt.

Create HintDb handlers.
#[local] Hint Resolve Framed_ret Framed_when Framed_bind Framed_on_arrowBody
  Framed_on_AssignmentExpression Framed_on_booleanTest
  Framed_on_SwitchStatement Framed_on_SwitchCase : handlers.

(** After [dispatch]: the listener on an arrow body, which matches any
    node in that place, set apart from the rest of the table. *)
Ltac arrow_apart :=
  rewrite emitted_on_arrowBody by (intros; auto 6 with handlers);
  rewrite filter_app, filter_arrow_other by discriminate;
  cbn [app].

(** X1. In the traversal of a type reference, a typeReferenceResolvesToAny
    is reported for it (once, anchored at it, with [typeName] the text of
    the reference) if and only if the reference resolves to [any]: the
    test is [isAnyType] alone, so a reference that resolves to [any[]]
    gives no report. *)
Theorem type_reference_reported :
  forall getTypeAtLocation allowVariableAnnotationFromAny
         typeName typeParameters above here,
    filter (isReportAt typeReferenceResolvesToAny here)
      (emitted (traverse getTypeAtLocation allowVariableAnnotationFromAny
                  here above
                  (typeTree (TSTypeReference typeName typeParameters))))
    = if isAnyType getTypeAtLocation here
      then [mkDiagnostic here typeReferenceResolvesToAny
              [("typeName", Some typeName)]]
      else [].
Proof.
  intros oracle allow text ps above here.
  cbn [typeTree]. rewrite reports_at_root by reflexivity.
  dispatch.
  rewrite emitted_bind
    by (intros; unfold on_TSTypeReference, on_arrowBody; framed).
  rewrite filter_app.
  unfold on_TSTypeReference at 1 2. cbn [focus at_]. cbv zeta.
  destruct (isAnyType oracle here); cbn [negb].
  - change (emitted (report ?d)) with [d].
    change (outcome (report ?d)) with (@Ok unit tt).
    rewrite emitted_on_arrowBody by apply Framed_ret.
    rewrite filter_app, filter_arrow_other by discriminate.
    cbn [filter]. rewrite isReportAt_refl. reflexivity.
  - change (emitted (ret tt)) with (@nil diagnostic).
    change (outcome (ret tt)) with (@Ok unit tt).
    rewrite emitted_on_arrowBody by apply Framed_ret.
    rewrite filter_app, filter_arrow_other by discriminate. reflexivity.
Qed.

(** X2. In the traversal of a declarator of the declaration that is the
    [left] of a for-of statement, a loopVariableInitialisedToAny is
    reported for it (once, anchored at it) if and only if the declarator
    resolves to [any] or [any[]], whatever the keyword of the declaration
    and whether or not the declared name is annotated; under a for-in
    statement none is reported. *)
Theorem loop_variable_reported :
  forall getTypeAtLocation allowVariableAnnotationFromAny
         id init kind declarations i left_ right_ body above here,
    let declaration := NStmt (VariableDeclaration kind declarations) in
    let declaratorAt := ("declarations", i) :: ("left", 0) :: here in
    let reports loop :=
      filter (isReportAt loopVariableInitialisedToAny declaratorAt)
        (emitted (traverse getTypeAtLocation allowVariableAnnotationFromAny
                    declaratorAt (declaration :: NStmt loop :: above)
                    (declaratorTree (VariableDeclarator id init)))) in
    reports (ForOfStatement left_ right_ body)
    = (if isAnyOrAnyArrayType getTypeAtLocation declaratorAt
       then [mkDiagnostic declaratorAt loopVariableInitialisedToAny []]
       else [])
    /\ reports (ForInStatement left_ right_ body) = [].
Proof.
  intros oracle allow id init kind declarations i l r body above here
    declaration declaratorAt reports.
  subst declaration declaratorAt reports. cbv beta.
  cbn [declaratorTree]. rewrite !reports_at_root by reflexivity.
  split;
    destruct kind, init as [init|]; dispatch;
    unfold on_letDeclaratorWithInit, on_letDeclaratorWithoutInit,
      on_forOfDeclarator, parentKind;
    cbn [focus parent ancestors at_];
    destruct (typeAnnotationOf id);
    try destruct (isNullLiteral _ || isUndefinedIdentifier _);
    try destruct (isAnyOrAnyArrayType oracle _);
    cbv [emitted bind report ret when fst snd app];
    cbn [filter]; unfold isReportAt;
    cbn [messageId node MessageIds_eqb andb];
    rewrite ?path_eqb_refl; reflexivity.
Qed.

(** X3. In the traversal of a return statement that is not in the place
    of the body of an arrow function, a returnAny is reported for it
    (once, anchored at the statement, not at its argument) if and only if
    it has an argument and the argument resolves to [any] or [any[]]; a
    bare [return;] is never reported. *)
Theorem return_statement_reported :
  forall getTypeAtLocation allowVariableAnnotationFromAny
         argument above here,
    matches sel_arrowBody
      (mkCursor (NStmt (ReturnStatement argument)) here above) = false ->
    filter (isReportAt returnAny here)
      (emitted (traverse getTypeAtLocation allowVariableAnnotationFromAny
                  here above (stmtTree (ReturnStatement argument))))
    = match argument with
      | Some _ =>
          if isAnyOrAnyArrayType getTypeAtLocation (("argument", 0) :: here)
          then [mkDiagnostic here returnAny []]
          else []
      | None => []
      end.
Proof.
  intros oracle allow argument above here Hbody.
  cbn [stmtTree]. rewrite reports_at_root by reflexivity.
  unfold enterNode, listeners, forEach, forEachFrom, fire. cbn [fst snd].
  rewrite Hbody.
  destruct argument as [argument|]; dispatch.
  - rewrite emitted_bind_Skip by skip.
    unfold on_ReturnStatement, childPath. cbn [focus at_ nullThrows].
    rewrite ret_bind.
    destruct (isAnyOrAnyArrayType oracle (("argument", 0) :: here)); simpl;
      [now rewrite isReportAt_refl | reflexivity].
  - reflexivity.
Qed.

(** X4. In the traversal of the expression that is the body of an arrow
    function, a returnAny is reported for the expression (once, anchored
    at it) if and only if it resolves to [any] or [any[]]. *)
Theorem arrow_expression_body_reported :
  forall getTypeAtLocation allowVariableAnnotationFromAny
         params body above here,
    let arrow := NExpr (ArrowFunctionExpression params (inl body)) in
    let bodyAt := ("body", 0) :: here in
    filter (isReportAt returnAny bodyAt)
      (emitted (traverse getTypeAtLocation allowVariableAnnotationFromAny
                  bodyAt (arrow :: above) (exprTree body)))
    = if isAnyOrAnyArrayType getTypeAtLocation bodyAt
      then [mkDiagnostic bodyAt returnAny []]
      else [].
Proof.
  intros oracle allow params body above here arrow bodyAt.
  subst arrow bodyAt.
  assert (Hrest : forall r : M unit,
             Emits (fun d => messageId d <> returnAny) r ->
             filter (isReportAt returnAny (("body", 0) :: here))
               (emitted (on_arrowBody oracle
                           (mkCursor (NExpr body) (("body", 0) :: here)
                              (NExpr (ArrowFunctionExpression params
                                        (inl body)) :: above)) ;; r))
             = if isAnyOrAnyArrayType oracle (("body", 0) :: here)
               then [mkDiagnostic (("body", 0) :: here) returnAny []]
               else []).
  { intros r Hr.
    destruct (on_arrowBody_reports oracle
                (mkCursor (NExpr body) (("body", 0) :: here)
                   (NExpr (ArrowFunctionExpression params (inl body))
                    :: above))) as [E O].
    rewrite emitted_bind
      by (intros; try apply Framed_on_arrowBody; apply Hr).
    rewrite O, E, filter_app, (filter_other_message _ _ r Hr), app_nil_r.
    cbn [at_].
    destruct (isAnyOrAnyArrayType oracle (("body", 0) :: here)); simpl;
      [now rewrite isReportAt_refl | reflexivity]. }
  destruct body; cbn [exprTree]; rewrite reports_at_root by reflexivity;
    dispatch; rewrite ?andb_false_r; cbn [when]; rewrite ?ret_bind;
    apply Hrest.
  all: unfold_handlers; unfold hasTest; cbn [asExpr focus]; emits;
    discriminate.
Qed.

(** X5. In the traversal of an assignment, an assignmentValueIsAny is
    reported for it (once, anchored at the assignment, not at its right
    side) if and only if the right side resolves to [any] or [any[]],
    whatever the operator and the target. *)
Theorem assignment_value_reported :
  forall getTypeAtLocation allowVariableAnnotationFromAny
         operator left_ right_ above here,
    filter (isReportAt assignmentValueIsAny here)
      (emitted (traverse getTypeAtLocation allowVariableAnnotationFromAny
                  here above
                  (exprTree (AssignmentExpression operator left_ right_))))
    = if isAnyOrAnyArrayType getTypeAtLocation (("right", 0) :: here)
      then [mkDiagnostic here assignmentValueIsAny []]
      else [].
Proof.
  intros oracle allow operator l r above here.
  cbn [exprTree]. rewrite reports_at_root by reflexivity.
  dispatch. arrow_apart.
  rewrite emitted_bind_Skip by skip.
  unfold on_AssignmentExpression, childPath. cbn [asExpr focus at_].
  destruct (isAnyOrAnyArrayType oracle (("right", 0) :: here)); simpl;
    [now rewrite isReportAt_refl | reflexivity].
Qed.

Section Tests.

Variable getTypeAtLocation : path -> ts.Type_.
Variable allowVariableAnnotationFromAny : bool.

(** The report of the listener on boolean tests for a node at [here]. *)
Lemma boolean_test_reports n children kind above here :
  hasTest n = true ->
  typeToText (nodeType n) = Some kind ->
  filter (isReportAt booleanTestIsAny (("test", 0) :: here))
    (emitted (traverse getTypeAtLocation allowVariableAnnotationFromAny
                here above (Tree n children)))
  = if isAnyOrAnyArrayType getTypeAtLocation (("test", 0) :: here)
    then [mkDiagnostic (("test", 0) :: here) booleanTestIsAny
            [("kind", Some kind)]]
    else [].
Proof.
  intros Htest Hkind. rewrite reports_at_child by reflexivity.
  assert (Hon : forall c,
             focus c = n -> at_ c = here ->
             filter (isReportAt booleanTestIsAny (("test", 0) :: here))
               (emitted (on_booleanTest getTypeAtLocation c))
             = if isAnyOrAnyArrayType getTypeAtLocation (("test", 0) :: here)
               then [mkDiagnostic (("test", 0) :: here) booleanTestIsAny
                       [("kind", Some kind)]]
               else []).
  { intros c Hf Hat. unfold on_booleanTest, childPath.
    rewrite Hf, Hat, Htest, Hkind. cbv zeta.
    destruct (isAnyOrAnyArrayType getTypeAtLocation (("test", 0) :: here));
      simpl; [now rewrite isReportAt_refl | reflexivity]. }
  destruct n as [b|s|e|p|d|c|t|t]; try discriminate Htest;
    [ destruct s; try discriminate Htest
    | destruct e; try discriminate Htest
    | destruct p as [ | | | | | |e]; try discriminate Htest;
      destruct e; try discriminate Htest ];
    dispatch; arrow_apart;
    rewrite emitted_bind_Skip by skip;
    now apply Hon.
Qed.

End Tests.

(** X6. In the traversal of an [if], [while] or [do]-[while] statement or
    of a conditional expression, a booleanTestIsAny is reported for its
    test (once, anchored at the test, not at the statement) if and only if
    the test resolves to [any] or [any[]]; its [kind] is if, while,
    do while or ternary by the type of the node. *)
Theorem boolean_tests_reported :
  forall getTypeAtLocation allowVariableAnnotationFromAny above here,
    let reports t :=
      filter (isReportAt booleanTestIsAny (("test", 0) :: here))
        (emitted (traverse getTypeAtLocation allowVariableAnnotationFromAny
                    here above t)) in
    let expected kind :=
      if isAnyOrAnyArrayType getTypeAtLocation (("test", 0) :: here)
      then [mkDiagnostic (("test", 0) :: here) booleanTestIsAny
              [("kind", Some kind)]]
      else [] in
    (forall test consequent alternate,
        reports (stmtTree (IfStatement test consequent alternate))
        = expected "if") /\
    (forall test body,
        reports (stmtTree (WhileStatement test body)) = expected "while") /\
    (forall body test,
        reports (stmtTree (DoWhileStatement body test))
        = expected "do while") /\
    (forall test consequent alternate,
        reports (exprTree (ConditionalExpression test consequent alternate))
        = expected "ternary").
Proof.
  intros oracle allow above here reports expected.
  subst reports expected. cbv beta.
  repeat split; intros; cbn [stmtTree exprTree];
    now apply boolean_test_reports.
Qed.

(** X7. In the traversal of a switch statement, a switchDiscriminantIsAny
    is reported for its discriminant (once, anchored at the discriminant)
    if and only if the discriminant resolves to [any] or [any[]]. *)
Theorem switch_discriminant_reported :
  forall getTypeAtLocation allowVariableAnnotationFromAny
         discriminant cases above here,
    let discriminantAt := ("discriminant", 0) :: here in
    filter (isReportAt switchDiscriminantIsAny discriminantAt)
      (emitted (traverse getTypeAtLocation allowVariableAnnotationFromAny
                  here above
                  (stmtTree (SwitchStatement discriminant cases))))
    = if isAnyOrAnyArrayType getTypeAtLocation discriminantAt
      then [mkDiagnostic discriminantAt switchDiscriminantIsAny []]
      else [].
Proof.
  intros oracle allow discriminant cases above here discriminantAt.
  subst discriminantAt.
  cbn [stmtTree]. rewrite reports_at_child by reflexivity.
  dispatch. arrow_apart.
  rewrite emitted_bind_Skip by skip.
  unfold on_SwitchStatement, childPath. cbn [focus at_].
  destruct (isAnyOrAnyArrayType oracle (("discriminant", 0) :: here)); simpl;
    [now rewrite isReportAt_refl | reflexivity].
Qed.

(** X8. In the traversal of a switch case, a switchCaseTestIsAny is
    reported for it (once, anchored at the case, not at its test) if and
    only if it has a test and the test resolves to [any] or [any[]]; a
    [default:] case is never reported. *)
Theorem switch_case_reported :
  forall getTypeAtLocation allowVariableAnnotationFromAny
         test consequent above here,
    filter (isReportAt switchCaseTestIsAny here)
      (emitted (traverse getTypeAtLocation allowVariableAnnotationFromAny
                  here above (switchCaseTree (SwitchCase test consequent))))
    = match test with
      | Some _ =>
          if isAnyOrAnyArrayType getTypeAtLocation (("test", 0) :: here)
          then [mkDiagnostic here switchCaseTestIsAny []]
          else []
      | None => []
      end.
Proof.
  intros oracle allow test consequent above here.
  cbn [switchCaseTree]. rewrite reports_at_root by reflexivity.
  destruct test as [test|]; dispatch; arrow_apart.
  - rewrite emitted_bind_Skip by skip.
    unfold on_SwitchCase, childPath. cbn [focus at_ nullThrows].
    rewrite ret_bind.
    destruct (isAnyOrAnyArrayType oracle (("test", 0) :: here)); simpl;
      [now rewrite isReportAt_refl | reflexivity].
  - reflexivity.
Qed.

(** X9. No listener of the table is called for a member access, a binary
    expression or a cast, whatever their operands resolve to: entering
    one reports nothing, except the returnAny of the listener on the body
    of an arrow function where the expression is in that place and
    resolves to [any] or [any[]]; and entering it returns. *)
Theorem member_binary_and_cast_expressions_unchecked :
  forall getTypeAtLocation allowVariableAnnotationFromAny above here,
    let entered e :=
      enterNode getTypeAtLocation allowVariableAnnotationFromAny
        (mkCursor (NExpr e) here above) in
    let asArrowBody e :=
      if matches sel_arrowBody (mkCursor (NExpr e) here above)
         && isAnyOrAnyArrayType getTypeAtLocation here
      then [mkDiagnostic here returnAny []]
      else [] in
    let unchecked e :=
      emitted (entered e) = asArrowBody e /\ outcome (entered e) = Ok tt in
    (forall object property, unchecked (MemberExpression object property)) /\
    (forall operator l r, unchecked (BinaryExpression operator l r)) /\
    (forall expression annotation,
        unchecked (TSAsExpression expression annotation)).
Proof.
  intros oracle allow above here entered asArrowBody unchecked.
  subst entered asArrowBody unchecked. cbv beta.
  repeat split; intros; dispatch;
    try (rewrite emitted_on_arrowBody by apply Framed_ret;
         cbn [at_]; apply app_nil_r);
    rewrite outcome_bind_Skip by skip;
    match goal with
    | |- outcome (when ?b _) = _ =>
        destruct b; [apply on_arrowBody_reports | reflexivity]
    end.
Qed.

(** * How a traversal ends, and what the option and the checker change *)

(** ** How a traversal ends *)

(** A loop ends with the first element that throws; what it reports up to
    there is the beginning of what it reports when nothing throws. *)
Lemma forEachFrom_until {A : Type} (f : nat -> A -> M unit)
      (g : nat -> A -> list diagnostic) (b : A -> bool) (l : list A) :
  Forall (fun x => forall i,
              Framed (f i x)
              /\ outcome (f i x) = (if b x then Throw TypeError else Ok tt)
              /\ exists rest, g i x = emitted (f i x) ++ rest
                              /\ (b x = false -> rest = [])) l ->
  forall i,
    outcome (forEachFrom f i l)
    = (if existsb b l then Throw TypeError else Ok tt)
    /\ exists rest, flatMapFrom g i l = emitted (forEachFrom f i l) ++ rest
                    /\ (existsb b l = false -> rest = []).
Proof.
  induction 1 as [|x l Hx Hl IH]; intros i; simpl.
  - split; [reflexivity|]. exists []. split; [reflexivity|auto].
  - destruct (Hx i) as (Fx & Ox & rx & Ex & Nx).
    destruct (IH (S i)) as (Ol & rl & El & Nl).
    assert (Fl : forall a : unit, Framed (forEachFrom f (S i) l)).
    { intros _. apply Framed_forEachFrom.
      eapply Forall_impl; [|exact Hl]. intros y Hy j. apply Hy. }
    rewrite emitted_bind, outcome_bind by assumption.
    rewrite Ox, Ex. destruct (b x); simpl.
    + split; [reflexivity|].
      exists (rx ++ flatMapFrom g (S i) l).
      split; [now rewrite app_nil_r, app_assoc | discriminate].
    + rewrite (Nx eq_refl), app_nil_r. split; [exact Ol|].
      exists rl. split; [now rewrite El, app_assoc | exact Nl].
Qed.

Section Walk.

Variable getTypeAtLocation : path -> ts.Type_.

Lemma checkDestructuringPattern_until p :
  forall here,
    outcome (checkDestructuringPattern getTypeAtLocation here p)
    = (if hasElision p then Throw TypeError else Ok tt)
    /\ exists rest,
        leafReports getTypeAtLocation here p
        = emitted (checkDestructuringPattern getTypeAtLocation here p) ++ rest
        /\ (hasElision p = false -> rest = []).
Proof.
  induction p as [properties ann IH|elements ann IH|p Hleaf]
    using pattern_walk_ind; intros here.
  - unfold leafReports. simpl. unfold forEach.
    rewrite flatMapFrom_map_filter.
    apply forEachFrom_until.
    eapply Forall_impl; [|exact IH].
    intros prop Hprop i.
    split; [destruct prop; apply Framed_checkDestructuringPattern|].
    destruct prop; simpl in Hprop; apply Hprop.
  - unfold leafReports. simpl. unfold forEach.
    rewrite flatMapFrom_map_filter.
    apply forEachFrom_until.
    eapply Forall_impl; [|exact IH].
    intros el Hel i. destruct el as [el|].
    + split; [apply Framed_checkDestructuringPattern|]. apply Hel.
    + split; [apply Framed_throw|]. split; [reflexivity|].
      exists []. split; [reflexivity|auto].
  - unfold leafReports.
    destruct p; try discriminate Hleaf; simpl;
      (split; [now destruct (isAnyOrAnyArrayType getTypeAtLocation here)|]);
      exists []; rewrite app_nil_r;
      (split; [now destruct (isAnyOrAnyArrayType getTypeAtLocation here)
              | auto]).
Qed.

End Walk.

(** ** The leaves a walk reaches before an elision *)

Lemma forEachFrom_flatMapUntil {A : Type} (f : nat -> A -> M unit)
      (g : nat -> A -> list path * bool) (keep : path -> bool) (l : list A) :
  Forall (fun x => forall i,
              Framed (f i x)
              /\ outcome (f i x)
                 = (if snd (g i x) then Throw TypeError else Ok tt)
              /\ emitted (f i x)
                 = map patternReport (filter keep (fst (g i x)))) l ->
  forall i,
    outcome (forEachFrom f i l)
    = (if snd (flatMapUntil g i l) then Throw TypeError else Ok tt)
    /\ emitted (forEachFrom f i l)
       = map patternReport (filter keep (fst (flatMapUntil g i l))).
Proof.
  induction 1 as [|x l Hx Hl IH]; intros i; simpl.
  - split; reflexivity.
  - destruct (Hx i) as (Fx & Ox & Ex). destruct (IH (S i)) as (Ol & El).
    assert (Fl : forall a : unit, Framed (forEachFrom f (S i) l)).
    { intros _. apply Framed_forEachFrom.
      eapply Forall_impl; [|exact Hl]. intros y Hy j. apply Hy. }
    rewrite emitted_bind, outcome_bind by assumption.
    rewrite Ox, Ex. destruct (snd (g i x)); simpl.
    + split; [reflexivity | apply app_nil_r].
    + split; [exact Ol|]. now rewrite El, filter_app, map_app.
Qed.

Lemma flatMapUntil_stops {A B : Type} (g : nat -> A -> list B * bool)
      (b : A -> bool) (l : list A) :
  Forall (fun x => forall i, snd (g i x) = b x) l ->
  forall i, snd (flatMapUntil g i l) = existsb b l.
Proof.
  induction 1 as [|x l Hx _ IH]; intros i; simpl; [reflexivity|].
  rewrite Hx. destruct (b x); simpl; [reflexivity | apply IH].
Qed.

Lemma flatMapUntil_all {A B : Type} (g : nat -> A -> list B * bool)
      (g' : nat -> A -> list B) (l : list A) :
  Forall (fun x => forall i, snd (g i x) = false -> fst (g i x) = g' i x) l ->
  forall i,
    snd (flatMapUntil g i l) = false ->
    fst (flatMapUntil g i l) = flatMapFrom g' i l.
Proof.
  induction 1 as [|x l Hx _ IH]; intros i; simpl; [reflexivity|].
  destruct (snd (g i x)) eqn:E; simpl; [discriminate|].
  intros Hrest. now rewrite (Hx i E), (IH (S i) Hrest).
Qed.

Lemma reached_elision p : forall here, snd (reached here p) = hasElision p.
Proof.
  induction p as [properties ann IH|elements ann IH|p Hleaf]
    using pattern_walk_ind; intros here.
  - simpl. apply flatMapUntil_stops.
    eapply Forall_impl; [|exact IH].
    intros prop Hprop i.
    destruct prop; try reflexivity; simpl in Hprop; apply Hprop.
  - simpl. apply flatMapUntil_stops.
    eapply Forall_impl; [|exact IH].
    intros el Hel i. destruct el; simpl in Hel; [apply Hel | reflexivity].
  - destruct p; try discriminate Hleaf; reflexivity.
Qed.

Lemma reached_leaves p :
  forall here, hasElision p = false -> fst (reached here p) = leaves here p.
Proof.
  induction p as [properties ann IH|elements ann IH|p Hleaf]
    using pattern_walk_ind; intros here Hno;
    rewrite <- (reached_elision _ here) in Hno.
  - simpl in *. apply flatMapUntil_all; [|exact Hno].
    eapply Forall_impl; [|exact IH].
    intros prop Hprop i Hi.
    destruct prop; try reflexivity; simpl in Hprop; apply Hprop;
      rewrite <- Hi; symmetry; apply reached_elision.
  - simpl in *. apply flatMapUntil_all; [|exact Hno].
    eapply Forall_impl; [|exact IH].
    intros el Hel i Hi. destruct el; simpl in Hel; [|discriminate Hi].
    apply Hel. rewrite <- Hi. symmetry. apply reached_elision.
  - destruct p; try discriminate Hleaf; reflexivity.
Qed.

Section Reached.

Variable getTypeAtLocation : path -> ts.Type_.

Lemma checkDestructuringPattern_reached p :
  forall here,
    outcome (checkDestructuringPattern getTypeAtLocation here p)
    = (if snd (reached here p) then Throw TypeError else Ok tt)
    /\ emitted (checkDestructuringPattern getTypeAtLocation here p)
       = map patternReport
           (filter (isAnyOrAnyArrayType getTypeAtLocation)
              (fst (reached here p))).
Proof.
  induction p as [properties ann IH|elements ann IH|p Hleaf]
    using pattern_walk_ind; intros here.
  - simpl. unfold forEach. apply forEachFrom_flatMapUntil.
    eapply Forall_impl; [|exact IH].
    intros prop Hprop i.
    split; [destruct prop; apply Framed_checkDestructuringPattern|].
    destruct prop; simpl in Hprop; apply Hprop.
  - simpl. unfold forEach. apply forEachFrom_flatMapUntil.
    eapply Forall_impl; [|exact IH].
    intros el Hel i. destruct el as [el|].
    + split; [apply Framed_checkDestructuringPattern|]. apply Hel.
    + split; [apply Framed_throw|]. split; reflexivity.
  - destruct p; try discriminate Hleaf; simpl;
      destruct (isAnyOrAnyArrayType getTypeAtLocation here);
      split; reflexivity.
Qed.

End Reached.

(** X10. The walk of a destructuring pattern, where the checker has an
    answer for every leaf: it throws a TypeError if and only if the
    pattern has an elision, and returns otherwise.  Either way its
    reports are one patternVariableDeclarationInitialisedToAny for each
    leaf it reaches before the first elision that resolves to [any] or
    [any[]], anchored at the leaf, in the order of the walk; where the
    pattern has no elision these are all its leaves, and no leaf after an
    elision is looked at. *)
Theorem pattern_walk_stops_at_an_elision :
  forall getTypeAtLocation node here,
    walkAnswered node = true ->
    let walk := checkDestructuringPattern getTypeAtLocation here node in
    let stops := fst (reached here node) in
    let elided := snd (reached here node) in
    elided = hasElision node
    /\ (elided = false -> stops = leaves here node)
    /\ outcome walk = (if elided then Throw TypeError else Ok tt)
    /\ emitted walk
       = map patternReport
           (filter (isAnyOrAnyArrayType getTypeAtLocation) stops).
Proof.
  intros oracle node here _ walk stops elided. subst walk stops elided.
  split; [apply reached_elision|].
  split; [rewrite reached_elision; apply reached_leaves|].
  apply checkDestructuringPattern_reached.
Qed.

(** ** Listeners that return *)

Lemma Returns_ret : Returns (ret tt).
Proof. split; [apply Framed_ret | reflexivity]. Qed.

Lemma Returns_report d : Returns (report d).
Proof. split; [apply Framed_report | reflexivity]. Qed.

Lemma Returns_bind {A : Type} (m : M A) (f : A -> M unit) a :
  Framed m -> outcome m = Ok a -> Returns (f a) ->
  (forall x, Framed (f x)) -> Returns (bind m f).
Proof.
  intros Fm Om [Ff Of] Fall. split.
  - now apply Framed_bind.
  - rewrite outcome_bind by assumption. now rewrite Om.
Qed.

Lemma Returns_when (b : bool) (m : M unit) : Returns m -> Returns (when b m).
Proof. destruct b; simpl; auto using Returns_ret. Qed.

Lemma Returns_forEachFrom {A : Type} (f : nat -> A -> M unit) (l : list A) :
  (forall i x, Returns (f i x)) -> forall i, Returns (forEachFrom f i l).
Proof.
  intros H. induction l as [|x l IH]; intros i; simpl.
  - apply Returns_ret.
  - destruct (H i x) as [Fx Ox]. destruct (IH (S i)) as [Fl Ol]. split.
    + apply Framed_bind; auto.
    + rewrite outcome_bind by auto. now rewrite Ox.
Qed.

Ltac returns_step :=
  match goal with
  | |- Returns (ret _) => apply Returns_ret
  | |- Returns (report _) => apply Returns_report
  | |- Returns (when _ _) => apply Returns_when
  | |- Returns (bind (ret _) _) => rewrite ret_bind
  | |- Returns (forEach _ _) =>
      unfold forEach; apply Returns_forEachFrom; intros ? ?
  | |- Returns (match ?x with _ => _ end) => destruct x eqn:?
  | |- Returns (if ?b then _ else _) => destruct b eqn:?
  | |- Returns (let _ := _ in _) => cbv zeta
  end.

Lemma forEachFrom_outcome {A : Type} (f : A -> M unit) (l : list A) :
  (forall x, In x l -> Framed (f x)) ->
  forall i,
    outcome (forEachFrom (fun _ x => f x) i l)
    = fold_right (fun x r => match outcome (f x) with
                             | Ok _ => r
                             | Throw e => Throw e
                             end) (Ok tt) l.
Proof.
  induction l as [|x l IH]; intros Hf i; simpl; [reflexivity|].
  rewrite outcome_bind.
  - rewrite IH by (intros; apply Hf; now right). reflexivity.
  - apply Hf. now left.
  - intros _. apply Framed_forEachFrom. apply Forall_forall.
    intros y Hy _. apply Hf. now right.
Qed.

Section Ends.

Variable getTypeAtLocation : path -> ts.Type_.
Variable allowVariableAnnotationFromAny : bool.

(** Every listener but the two on a destructuring pattern returns. *)
Lemma fire_returns l c :
  In l [ (sel_TSTypeReference, on_TSTypeReference getTypeAtLocation);
         (sel_letDeclaratorWithoutInit, on_letDeclaratorWithoutInit);
         (sel_letDeclaratorWithInit, on_letDeclaratorWithInit);
         (sel_declaratorIdentifier,
          on_declaratorIdentifier getTypeAtLocation
            allowVariableAnnotationFromAny);
         (sel_declaratorEmptyArray, on_declaratorEmptyArray);
         (sel_forOfDeclarator, on_forOfDeclarator getTypeAtLocation);
         (sel_ReturnStatement, on_ReturnStatement getTypeAtLocation);
         (sel_arrowBody, on_arrowBody getTypeAtLocation);
         (sel_CallExpression, on_CallExpression getTypeAtLocation);
         (sel_AssignmentExpression,
          on_AssignmentExpression getTypeAtLocation);
         (sel_UpdateExpression, on_UpdateExpression getTypeAtLocation);
         (sel_booleanTest, on_booleanTest getTypeAtLocation);
         (sel_SwitchStatement, on_SwitchStatement getTypeAtLocation);
         (sel_SwitchCase, on_SwitchCase getTypeAtLocation) ] ->
  Returns (fire l c).
Proof.
  simpl. intros H. unfold fire.
  destruct c as [f p anc].
  repeat (destruct H as [H|H]; [subst l; cbn [fst snd]|]);
    try contradiction;
    (destruct (matches _ _) eqn:Hmatch; [|apply Returns_ret]);
    cbn [when];
    try (unfold on_arrowBody, on_forOfDeclarator;
         apply Returns_when; apply Returns_report);
    unfold_selectors_in Hmatch; cbn in Hmatch;
    shapes Hmatch;
    unfold_handlers; unfold parentKind, hasTest, parent;
    cbn [focus at_ ancestors asExpr nullThrows];
    repeat returns_step.
Qed.


(** The two listeners on a destructuring pattern throw where the walk of
    the pattern does. *)
Lemma fire_pattern sel c :
  sel = sel_declaratorObjectPattern \/ sel = sel_declaratorArrayPattern ->
  outcome (fire (sel, on_declaratorPattern getTypeAtLocation
                        allowVariableAnnotationFromAny) c)
  = if matches sel c
       && negb (isAnyOrAnyArrayType getTypeAtLocation
                  (("init", 0) :: tl (at_ c)))
       && match focus c with
          | NPattern p => hasElision p
          | _ => false
          end
    then Throw TypeError else Ok tt.
Proof.
  intros Hsel. unfold fire. cbn [fst snd].
  destruct c as [f p anc].
  destruct (matches sel _) eqn:Hmatch; [|reflexivity].
  cbn [when andb].
  destruct Hsel; subst sel;
    unfold_selectors_in Hmatch; cbn in Hmatch;
    shapes Hmatch;
    unfold on_declaratorPattern, parent, childPath;
    cbn [focus at_ ancestors tl];
    (destruct (isAnyOrAnyArrayType getTypeAtLocation _); cbn [negb andb];
     [ apply reportVariableDeclarationInitialisedToAny_spec
     | apply checkDestructuringPattern_until ]).
Qed.

Lemma enterNode_outcome c :
  outcome (enterNode getTypeAtLocation allowVariableAnnotationFromAny c)
  = if aborts getTypeAtLocation c then Throw TypeError else Ok tt.
Proof.
  unfold enterNode, forEach.
  rewrite (forEachFrom_outcome (fun l => fire l c))
    by (intros l Hl; apply Framed_when;
        exact (Framed_listener _ _ l c Hl)).
  unfold listeners. cbn [fold_right].
  rewrite !fire_pattern by auto.
  repeat match goal with
         | |- context [outcome (fire ?l c)] =>
             rewrite (proj2 (fire_returns l c ltac:(simpl; tauto)))
         end.
  unfold aborts.
  destruct (matches sel_declaratorObjectPattern c),
    (matches sel_declaratorArrayPattern c),
    (isAnyOrAnyArrayType getTypeAtLocation _),
    (match focus c with NPattern p => hasElision p | _ => false end);
    reflexivity.
Qed.

Lemma traverse_outcome t :
  forall here above,
    outcome (traverse getTypeAtLocation allowVariableAnnotationFromAny
               here above t)
    = if existsb (aborts getTypeAtLocation) (cursors here above t)
      then Throw TypeError else Ok tt.
Proof.
  induction t as [n children IH] using tree_walk_ind; intros here above.
  rewrite traverse_unfold.
  rewrite outcome_bind
    by (try apply Framed_enterNode; intros; apply walkChildren_notAbove).
  rewrite enterNode_outcome. cbn [cursors existsb].
  destruct (aborts getTypeAtLocation (mkCursor n here above));
    [reflexivity|]. cbn [orb].
  unfold walkChildren, forEach. generalize 0.
  induction IH as [|kt children Hkt _ IHc]; intros i; [reflexivity|].
  cbn [forEachFrom flat_map].
  rewrite outcome_bind
    by (intros; try apply Framed_traverse;
        apply Framed_forEachFrom; apply Forall_forall; intros;
        apply Framed_traverse).
  rewrite Hkt, existsb_app.
  destruct (existsb _ (cursors _ _ (snd kt))); [reflexivity|].
  apply IHc.
Qed.

End Ends.

(** X11. Linting a program in which no listener asks the checker what
    it has no answer for (no loop variable of a for-of statement is
    declared by a pattern, and in no pattern declared with an initializer
    does an element with a default value or a rest element bind a
    pattern): it throws a TypeError if and only if some node of the
    program is the object or array pattern declared by a declarator with
    an initializer that resolves neither to [any] nor to [any[]], and the
    walk of that pattern meets an elision; otherwise it returns.  The
    option has no part in it. *)
Theorem traversal_aborts_exactly :
  forall getTypeAtLocation allowVariableAnnotationFromAny body,
    existsb unanswerable (programCursors body) = false ->
    outcome (lint getTypeAtLocation allowVariableAnnotationFromAny body)
    = if existsb (aborts getTypeAtLocation) (programCursors body)
      then Throw TypeError else Ok tt.
Proof.
  intros oracle allow body _. apply traverse_outcome.
Qed.

(** X12. Linting a program returns or throws a TypeError: the
    [nullThrows] of the listeners on a return statement and on a switch
    case never throws, since their selectors ask for the argument and for
    the test. *)
Theorem traversal_throws_only_TypeError :
  forall getTypeAtLocation allowVariableAnnotationFromAny body,
    let ended :=
      outcome (lint getTypeAtLocation allowVariableAnnotationFromAny body) in
    ended = Ok tt \/ ended = Throw TypeError.
Proof.
  intros oracle allow body ended. subst ended. unfold lint.
  rewrite traverse_outcome.
  destruct (existsb _ _); auto.
Qed.

(** ** The option allowVariableAnnotationFromAny *)

Section SilencesRules.

Variable keep : diagnostic -> bool.

Lemma Silences_refl (m : M unit) :
  Emits (fun d => keep d = true) m -> Silences keep m m.
Proof.
  intros [Fm Hm]. repeat split; auto.
  symmetry. apply forallb_filter_id. apply forallb_forall.
  now apply Forall_forall.
Qed.

Lemma Silences_bind (m m' : M unit) (k k' : unit -> M unit) :
  Silences keep m m' -> (forall a, Silences keep (k a) (k' a)) ->
  Silences keep (bind m k) (bind m' k').
Proof.
  intros (Fm & Fm' & Om & Em) Hk.
  assert (Fk : forall a, Framed (k a)) by (intros a; apply Hk).
  assert (Fk' : forall a, Framed (k' a)) by (intros a; apply Hk).
  repeat split; try (apply Framed_bind; assumption).
  - rewrite !outcome_bind by assumption. rewrite Om.
    destruct (outcome m'); [apply Hk | reflexivity].
  - rewrite !emitted_bind by assumption. rewrite Om, Em, filter_app.
    f_equal. destruct (outcome m') as [a|]; [|reflexivity].
    now destruct (Hk a) as (_ & _ & _ & ->).
Qed.

Lemma Silences_when (b : bool) (m m' : M unit) :
  Silences keep m m' -> Silences keep (when b m) (when b m').
Proof.
  destruct b; simpl; auto.
  intros _. apply Silences_refl. apply Emits_ret.
Qed.

Lemma Silences_forEachFrom {A : Type} (f f' : nat -> A -> M unit)
      (l : list A) :
  Forall (fun x => forall i, Silences keep (f i x) (f' i x)) l ->
  forall i, Silences keep (forEachFrom f i l) (forEachFrom f' i l).
Proof.
  induction 1 as [|x l Hx _ IH]; intros i; simpl.
  - apply Silences_refl. apply Emits_ret.
  - apply Silences_bind; auto.
Qed.

End SilencesRules.

Section Option.

Variable getTypeAtLocation : path -> ts.Type_.

Lemma reportVariableDeclarationInitialisedToAny_silenced c :
  Silences notWithAnnotation
    (reportVariableDeclarationInitialisedToAny true c)
    (reportVariableDeclarationInitialisedToAny false c).
Proof.
  unfold reportVariableDeclarationInitialisedToAny.
  destruct (focus c) as [ | | | |[id init]| | | ];
    try (apply Silences_refl; apply Emits_throw).
  destruct (typeAnnotationOf id) as [annotation|];
    [|apply Silences_refl; apply Emits_report; reflexivity].
  destruct annotation;
    try (apply Silences_refl; apply Emits_ret);
    (split; [apply Framed_ret|];
     split; [apply Framed_report|]; split; reflexivity).
Qed.

Lemma on_declaratorIdentifier_silenced c :
  Silences notWithAnnotation
    (on_declaratorIdentifier getTypeAtLocation true c)
    (on_declaratorIdentifier getTypeAtLocation false c).
Proof.
  unfold on_declaratorIdentifier.
  destruct (parent c) as [parent_|];
    [|apply Silences_refl; apply Emits_throw].
  destruct (focus parent_) as [ | | | |[id init]| | | ];
    try (apply Silences_refl; apply Emits_throw).
  destruct init; [|apply Silences_refl; apply Emits_ret].
  cbv zeta. destruct (_ && _); [apply Silences_refl; apply Emits_ret|].
  apply reportVariableDeclarationInitialisedToAny_silenced.
Qed.

Lemma on_declaratorPattern_silenced c :
  Silences notWithAnnotation
    (on_declaratorPattern getTypeAtLocation true c)
    (on_declaratorPattern getTypeAtLocation false c).
Proof.
  unfold on_declaratorPattern.
  destruct (parent c) as [parent_|];
    [|apply Silences_refl; apply Emits_throw].
  destruct (focus parent_) as [ | | | |[id init]| | | ];
    try (apply Silences_refl; apply Emits_throw).
  destruct init; [|apply Silences_refl; apply Emits_ret].
  cbv zeta. destruct (isAnyOrAnyArrayType _ _);
    [apply reportVariableDeclarationInitialisedToAny_silenced|].
  apply Silences_refl.
  destruct (focus c); try apply Emits_throw.
  eapply Emits_impl; [|apply checkDestructuringPattern_Emits].
  intros [a m dt] (Hm & _); simpl in Hm; subst. reflexivity.
Qed.

Lemma enterNode_silenced c :
  Silences notWithAnnotation
    (enterNode getTypeAtLocation true c)
    (enterNode getTypeAtLocation false c).
Proof.
  unfold enterNode, listeners, forEach, forEachFrom, fire. cbn [fst snd].
  repeat (apply Silences_bind; [apply Silences_when | intros _]);
    try (apply Silences_refl; apply Emits_ret);
    try apply on_declaratorIdentifier_silenced;
    try apply on_declaratorPattern_silenced;
    apply Silences_refl; unfold_handlers; emits; reflexivity.
Qed.

Lemma traverse_silenced t :
  forall here above,
    Silences notWithAnnotation
      (traverse getTypeAtLocation true here above t)
      (traverse getTypeAtLocation false here above t).
Proof.
  induction t as [n children IH] using tree_walk_ind; intros here above.
  rewrite !traverse_unfold. apply Silences_bind.
  - apply enterNode_silenced.
  - intros _. unfold walkChildren, forEach. apply Silences_forEachFrom.
    eapply Forall_impl; [|exact IH].
    intros kt Hkt _. apply Hkt.
Qed.

End Option.

(** X13. With allowVariableAnnotationFromAny set, linting a program
    reports what it reports with the option unset, less the
    variableDeclarationInitialisedToAnyWithAnnotation reports, in the same
    order, and ends the same way: the option removes those reports and
    changes nothing else. *)
Theorem option_silences_annotated_reports_only :
  forall getTypeAtLocation body,
    let allowed := lint getTypeAtLocation true body in
    let checked := lint getTypeAtLocation false body in
    emitted allowed = filter notWithAnnotation (emitted checked)
    /\ outcome allowed = outcome checked.
Proof.
  intros oracle body allowed checked.
  destruct (traverse_silenced oracle (programTree body) [] [])
    as (_ & _ & Ho & He).
  split; assumption.
Qed.

(** ** Every report is backed by an answer of the checker *)

Lemma Emits_when_true (I : diagnostic -> Prop) (b : bool) (m : M unit) :
  (b = true -> Emits I m) -> Emits I (when b m).
Proof. destruct b; simpl; auto using Emits_ret. Qed.

(** As [emits_step], keeping what a handler has tested. *)
Ltac backed_step :=
  match goal with
  | |- Emits _ (ret _) => apply Emits_ret
  | |- Emits _ (throw _) => apply Emits_throw
  | |- Emits _ (report _) => apply Emits_report
  | |- Emits _ (nullThrows _) => apply Emits_nullThrows
  | |- Emits _ (when _ _) => apply Emits_when_true; intros ?
  | |- Emits _ (bind _ _) => apply Emits_bind; [|intros ?]
  | |- Emits _ (forEach _ _) => apply Emits_forEach; intros ? ?
  | |- Emits _ (match ?x with _ => _ end) => destruct x eqn:?
  | |- Emits _ (if ?b then _ else _) => destruct b eqn:?
  | |- Emits _ (let _ := _ in _) => cbv zeta
  end.

Section BackedReports.

Variable getTypeAtLocation : path -> ts.Type_.
Variable allowVariableAnnotationFromAny : bool.

Lemma any_or_any_array tsNode :
  negb (isAnyType getTypeAtLocation tsNode)
  && negb (isAnyArrayType getTypeAtLocation tsNode) = false ->
  isAnyOrAnyArrayType getTypeAtLocation tsNode = true.
Proof.
  unfold isAnyOrAnyArrayType.
  destruct (isAnyType _ _), (isAnyArrayType _ _); simpl; congruence.
Qed.

Lemma checkDestructuringPattern_backed p :
  forall here,
    Emits (fun d => backed getTypeAtLocation d = true)
      (checkDestructuringPattern getTypeAtLocation here p).
Proof.
  induction p as [properties ann IH|elements ann IH|p Hleaf]
    using pattern_walk_ind; intros here.
  - simpl. apply Emits_forEachFrom.
    eapply Forall_impl; [|exact IH].
    intros prop Hprop i. destruct prop; simpl in Hprop; apply Hprop.
  - simpl. apply Emits_forEachFrom.
    eapply Forall_impl; [|exact IH].
    intros el Hel i. destruct el; simpl in Hel; [apply Hel|apply Emits_throw].
  - destruct p; try discriminate Hleaf; simpl;
      apply Emits_when_true; intros H; apply Emits_report; exact H.
Qed.

Lemma listener_backed l c :
  In l (listeners getTypeAtLocation allowVariableAnnotationFromAny) ->
  Emits (fun d => backed getTypeAtLocation d = true) (snd l c).
Proof.
  unfold listeners. simpl. intros H.
  repeat (destruct H as [H|H]; [subst l; simpl|]); try contradiction;
    unfold_handlers;
    repeat first
      [ apply checkDestructuringPattern_backed
      | backed_step ];
    unfold backed, childPath in *; cbn [messageId node];
    repeat match goal with
           | H : parent _ = Some _ |- _ => apply parent_at in H
           | H : negb _ && negb _ = false |- _ => apply any_or_any_array in H
           | H : negb _ = false |- _ => apply negb_false_iff in H
           | H : ?x = true |- context [?x] => rewrite H
           | H : at_ _ = _ |- _ => rewrite H in *
           end;
    rewrite ?orb_true_r; try reflexivity.
Qed.

End BackedReports.

(** X14. Every report of linting a program is backed by an answer of the
    checker at the node the listener of the report asks about: for
    typeReferenceResolvesToAny the reference resolves to [any], for
    updateExpressionIsAny the operand does; for
    variableDeclarationInitialisedToAnyWithAnnotation the initializer of
    the declarator resolves to [any] or [any[]], for assignmentValueIsAny
    the right side, for switchCaseTestIsAny the test of the case, for
    returnAny the argument of the statement or the reported node itself
    (the body of an arrow function), and for
    patternVariableDeclarationInitialisedToAny,
    loopVariableInitialisedToAny, passedArgumentIsAny, booleanTestIsAny
    and switchDiscriminantIsAny the reported node.  Only the two
    let-variable messages and
    variableDeclarationInitialisedToAnyWithoutAnnotation, which the
    listener on an empty array initializer reports without asking, can be
    reported where the checker answers neither [any] nor [any[]]. *)
Theorem reports_are_backed_by_the_checker :
  forall getTypeAtLocation allowVariableAnnotationFromAny body,
    Forall (fun d => backed getTypeAtLocation d = true)
      (emitted (lint getTypeAtLocation allowVariableAnnotationFromAny body)).
Proof.
  intros oracle allow body. unfold lint.
  apply (traverse_Emits oracle allow
           (fun _ d => backed oracle d = true)); auto.
  intros c. apply enterNode_Emits. intros l Hl.
  exact (listener_backed oracle allow l c Hl).
Qed.

(** ** The let-variable reports *)

Section LetReports.

Variable getTypeAtLocation : path -> ts.Type_.
Variable allowVariableAnnotationFromAny : bool.

Lemma fire_let_kind l c :
  In l (listeners getTypeAtLocation allowVariableAnnotationFromAny) ->
  Emits (fun d => isLetMessage (messageId d) = true ->
                  data d = [("kind", Some "let")]
                  \/ data d = [("kind", Some "var")])
    (fire l c).
Proof.
  unfold listeners. simpl. intros H. unfold fire.
  destruct c as [f p anc].
  repeat (destruct H as [H|H]; [subst l; cbn [fst snd]|]);
    try contradiction;
    (destruct (matches _ _) eqn:Hmatch; [|apply Emits_ret]);
    cbn [when];
    try (unfold_handlers;
         repeat first
           [ (eapply Emits_impl; [|apply checkDestructuringPattern_Emits]);
             intros [a m dt] (Hm & _); simpl in Hm; subst
           | emits_step ];
         simpl; intros Hlet; discriminate Hlet);
    unfold_selectors_in Hmatch; cbn in Hmatch; shapes Hmatch;
    unfold on_letDeclaratorWithoutInit, on_letDeclaratorWithInit,
      parentKind, parent;
    cbn [focus at_ ancestors]; emits; intros _; simpl;
    destruct kind; try discriminate Hmatch; auto.
Qed.

Lemma traverse_let_kind t here above :
  Emits (fun d => isLetMessage (messageId d) = true ->
                  data d = [("kind", Some "let")]
                  \/ data d = [("kind", Some "var")])
    (traverse getTypeAtLocation allowVariableAnnotationFromAny here above t).
Proof.
  apply (traverse_Emits getTypeAtLocation allowVariableAnnotationFromAny
           (fun _ d => isLetMessage (messageId d) = true ->
                       data d = [("kind", Some "let")]
                       \/ data d = [("kind", Some "var")])); auto.
  intros c. unfold enterNode. apply Emits_forEachFrom.
  apply Forall_forall. intros l Hl _. now apply fire_let_kind.
Qed.

End LetReports.

(** X15. Every let-variable report of linting a program carries as
    [kind] the keyword let or var: no declarator of a [const] declaration
    is reported by the two let-variable listeners. *)
Theorem let_reports_name_let_or_var :
  forall getTypeAtLocation allowVariableAnnotationFromAny body,
    Forall (fun d => isLetMessage (messageId d) = true ->
                     data d = [("kind", Some "let")]
                     \/ data d = [("kind", Some "var")])
      (emitted (lint getTypeAtLocation allowVariableAnnotationFromAny body)).
Proof.
  intros oracle allow body. apply traverse_let_kind.
Qed.

(** ** The let-variable listeners, case by case *)

Section LetDeclarators.

Variable getTypeAtLocation : path -> ts.Type_.
Variable allowVariableAnnotationFromAny : bool.

Lemma let_reports_at_root here above n children :
  filter (isLetReportAt here)
    (emitted (traverse getTypeAtLocation allowVariableAnnotationFromAny
                here above (Tree n children)))
  = filter (isLetReportAt here)
      (emitted (enterNode getTypeAtLocation allowVariableAnnotationFromAny
                  (mkCursor n here above))).
Proof.
  rewrite traverse_unfold.
  rewrite emitted_bind
    by (try apply Framed_enterNode; intros; apply walkChildren_notAbove).
  rewrite filter_app.
  replace (filter (isLetReportAt here)
             match outcome _ with
             | Ok _ => emitted (walkChildren getTypeAtLocation
                                  allowVariableAnnotationFromAny
                                  here above n children)
             | Throw _ => []
             end) with (@nil diagnostic); [apply app_nil_r|].
  destruct (outcome _); [|reflexivity]. symmetry.
  eapply filter_none; [apply walkChildren_selfOrBelow|].
  intros d Hd. destruct (isLetReportAt here d) eqn:E; [|reflexivity].
  unfold isLetReportAt in E. apply andb_true_iff in E.
  destruct E as [Em En]. apply path_eqb_eq in En.
  unfold selfOrBelow in Hd. rewrite En in Hd.
  destruct (messageId d); try discriminate Em; specialize (Hd eq_refl); lia.
Qed.

End LetDeclarators.

(** X16. In the traversal of a declarator of a variable declaration that
    is not a loop variable declared by a pattern, the let-variable reports
    anchored at the declarator are: none where the
    declaration is a [const] one or the declared name is annotated;
    otherwise exactly one letVariableWithNoInitialAndNoAnnotation if the
    declarator has no initializer, exactly one
    letVariableInitialisedToNullishAndNoAnnotation if its initializer is
    literally [null] or [undefined], and none for any other initializer;
    [kind] is the keyword of the declaration. *)
Theorem let_variable_reports :
  forall getTypeAtLocation allowVariableAnnotationFromAny
         id init kind declarations above here,
    let declaration := NStmt (VariableDeclaration kind declarations) in
    loopUnanswered
      (mkCursor (NDeclarator (VariableDeclarator id init)) here
         (declaration :: above)) = false ->
    filter (isLetReportAt here)
      (emitted (traverse getTypeAtLocation allowVariableAnnotationFromAny
                  here (declaration :: above)
                  (declaratorTree (VariableDeclarator id init))))
    = if exemptFromLet kind id then [] else letReport here kind init.
Proof.
  intros oracle allow id init kind declarations above here declaration _.
  subst declaration. cbn [declaratorTree]. rewrite let_reports_at_root.
  unfold enterNode, listeners, forEach, forEachFrom, fire. cbn [fst snd].
  remember (matches sel_forOfDeclarator _) as loop eqn:Hloop. clear Hloop.
  unfold_selectors.
  cbn -[on_letDeclaratorWithoutInit on_letDeclaratorWithInit
        on_forOfDeclarator on_arrowBody].
  rewrite ?andb_false_r, ?andb_true_r, ?orb_false_r.
  cbn [when]. rewrite ?ret_bind.
  unfold on_letDeclaratorWithoutInit, on_letDeclaratorWithInit,
    on_forOfDeclarator, parentKind, exemptFromLet, letReport.
  cbn [focus parent ancestors at_].
  destruct kind, init as [init|];
    cbn [optionValue negb andb orb when kindText String.eqb Ascii.eqb
         Bool.eqb];
    rewrite ?ret_bind;
    destruct (typeAnnotationOf id);
    try destruct (isNullLiteral _ || isUndefinedIdentifier _);
    destruct loop;
    try destruct (isAnyOrAnyArrayType oracle here);
    cbv [emitted bind report ret when fst snd app];
    cbn [filter]; unfold isLetReportAt;
    cbn [messageId node isLetMessage andb];
    rewrite ?path_eqb_refl; reflexivity.
Qed.

(** * Concrete programs *)

(** [const a = dyn;] with [dyn] of type [any]. *)
Lemma declared_identifier_initialised_to_any_witness :
  let oracle := resolving [("init", 0) :: firstDeclarator] [] in
  let id := PIdentifier "a" None in
  let declaration :=
    VariableDeclaration Kconst
      [VariableDeclarator id (Some (Identifier "dyn"))] in
  let entered :=
    enterNode oracle false
      (mkCursor (NPattern id) (("id", 0) :: firstDeclarator)
         [NDeclarator (VariableDeclarator id (Some (Identifier "dyn")));
          NStmt declaration; NProgram [declaration]]) in
  isAnyOrAnyArrayType oracle (("init", 0) :: firstDeclarator) = true /\
  (outcome entered = Ok tt /\
   emitted entered =
     [mkDiagnostic firstDeclarator
        variableDeclarationInitialisedToAnyWithoutAnnotation []]).
Proof.
  split; [reflexivity|].
  exact (declared_identifier_initialised_to_any
           (resolving [("init", 0) :: firstDeclarator] []) false
           "a" None (Identifier "dyn") Kconst
           [VariableDeclarator (PIdentifier "a" None) (Some (Identifier "dyn"))]
           [NProgram
              [VariableDeclaration Kconst
                 [VariableDeclarator (PIdentifier "a" None)
                    (Some (Identifier "dyn"))]]]
           firstDeclarator eq_refl).
Defined.

(** [const { a }: Foo = dyn;] with [dyn] of type [any] and the option set:
    the initializer resolves to [any] and nothing is reported for the
    declaration. *)
Lemma destructuring_annotated_counterexample :
  let program :=
    [VariableDeclaration Kconst
       [VariableDeclarator
          (ObjectPattern [Property (Identifier "a") (PIdentifier "a" None)]
             (Some (TSTypeReference "Foo" [])))
          (Some (Identifier "dyn"))]] in
  let oracle := resolving [("init", 0) :: firstDeclarator] [] in
  isAnyOrAnyArrayType oracle (("init", 0) :: firstDeclarator) = true /\
  lint oracle true program [] = ([], Ok tt).
Proof. split; reflexivity. Qed.

(** [const [a, { b }] = v;] where only [b] resolves to [any]. *)
Lemma destructuring_declarator_reports_witness :
  let id :=
    ArrayPattern
      [Some (PIdentifier "a" None);
       Some (ObjectPattern [Property (Identifier "b") (PIdentifier "b" None)]
               None)]
      None in
  let declaration :=
    VariableDeclaration Kconst [VariableDeclarator id (Some (Identifier "v"))] in
  let leaf_b :=
    [("value", 0); ("properties", 0); ("elements", 1); ("id", 0);
     ("declarations", 0); ("body", 0)] in
  let oracle := resolving [leaf_b] [] in
  let entered :=
    enterNode oracle false
      (mkCursor (NPattern id) (("id", 0) :: firstDeclarator)
         [NDeclarator (VariableDeclarator id (Some (Identifier "v")));
          NStmt declaration; NProgram [declaration]]) in
  isLeaf id = false /\
  hasElision id = false /\
  walkAnswered id = true /\
  (outcome entered = Ok tt /\ emitted entered = [patternReport leaf_b]).
Proof.
  split; [reflexivity|]. split; [reflexivity|]. split; [reflexivity|].
  exact (destructuring_declarator_reports
           (resolving
              [[("value", 0); ("properties", 0); ("elements", 1); ("id", 0);
                ("declarations", 0); ("body", 0)]] [])
           false
           (ArrayPattern
              [Some (PIdentifier "a" None);
               Some (ObjectPattern
                       [Property (Identifier "b") (PIdentifier "b" None)] None)]
              None)
           (Identifier "v") Kconst
           [VariableDeclarator
              (ArrayPattern
                 [Some (PIdentifier "a" None);
                  Some (ObjectPattern
                          [Property (Identifier "b") (PIdentifier "b" None)]
                          None)]
                 None)
              (Some (Identifier "v"))]
           [NProgram
              [VariableDeclaration Kconst
                 [VariableDeclarator
                    (ArrayPattern
                       [Some (PIdentifier "a" None);
                        Some (ObjectPattern
                                [Property (Identifier "b")
                                   (PIdentifier "b" None)] None)]
                       None)
                    (Some (Identifier "v"))]]]
           firstDeclarator eq_refl eq_refl eq_refl).
Defined.



(** The selector of the expression-body listener matches whatever node
    is the body of an arrow function: its [:not(...)] holds of every
    node. *)
Lemma sel_arrowBody_matches_every_body params body n here above :
  matches sel_arrowBody
    (mkCursor n (("body", 0) :: here)
       (NExpr (ArrowFunctionExpression params body) :: above))
  = true.
Proof.
  unfold sel_arrowBody. cbn.
  now rewrite andb_false_r.
Qed.

(** C5, at [(() => { return 1; });]: the selector of the expression-body
    listener matches the block body of the arrow function, and the
    listener reports returnAny anchored at the block when the checker
    resolves the block to [any]. *)
Theorem arrow_block_body_fires :
  let block := [ReturnStatement (Some (Literal (LitNumber 1)))] in
  let arrow := ArrowFunctionExpression [] (inr block) in
  let program := [ExpressionStatement arrow] in
  let body := [("body", 0); ("expression", 0); ("body", 0)] in
  let oracle := resolving [body] [] in
  matches sel_arrowBody
    (mkCursor (NStmt (BlockStatement block)) body
       [NExpr arrow; NStmt (ExpressionStatement arrow); NProgram program])
  = true /\
  lint oracle false program [] = ([mkDiagnostic body returnAny []], Ok tt).
Proof. split; reflexivity. Qed.

(** C10, at [const [, x] = v;] with [v] not of type [any]: the walk of
    the pattern reads the type of the absent element and the traversal
    ends in a TypeError. *)
Theorem elision_aborts_traversal :
  let program :=
    [VariableDeclaration Kconst
       [VariableDeclarator
          (ArrayPattern [None; Some (PIdentifier "x" None)] None)
          (Some (Identifier "v"))]] in
  lint (resolving [] []) false program [] = ([], Throw TypeError).
Proof. reflexivity. Qed.

(** ** The scenarios of the specification *)

(** [let x;] *)
Example scenario_let_without_initial :
  lint (resolving [] []) false
    [VariableDeclaration Klet [VariableDeclarator (PIdentifier "x" None) None]]
    []
  = ([mkDiagnostic firstDeclarator letVariableWithNoInitialAndNoAnnotation
        [("kind", Some "let")]],
     Ok tt).
Proof. reflexivity. Qed.

(** [var y = null;] *)
Example scenario_var_null :
  lint (resolving [] []) false
    [VariableDeclaration Kvar
       [VariableDeclarator (PIdentifier "y" None) (Some (Literal LitNull))]]
    []
  = ([mkDiagnostic firstDeclarator
        letVariableInitialisedToNullishAndNoAnnotation
        [("kind", Some "var")]],
     Ok tt).
Proof. reflexivity. Qed.

(** [const b: SomeType = dyn;] with the option unset, then set. *)
Example scenario_annotated :
  let program :=
    [VariableDeclaration Kconst
       [VariableDeclarator
          (PIdentifier "b" (Some (TSTypeReference "SomeType" [])))
          (Some (Identifier "dyn"))]] in
  let oracle := resolving [("init", 0) :: firstDeclarator] [] in
  lint oracle false program []
  = ([mkDiagnostic firstDeclarator
        variableDeclarationInitialisedToAnyWithAnnotation []],
     Ok tt)
  /\ lint oracle true program [] = ([], Ok tt).
Proof. split; reflexivity. Qed.

(** [const arr = [];] *)
Example scenario_empty_array :
  lint (resolving [] []) false
    [VariableDeclaration Kconst
       [VariableDeclarator (PIdentifier "arr" None)
          (Some (ArrayExpression []))]]
    []
  = ([mkDiagnostic firstDeclarator
        variableDeclarationInitialisedToAnyWithoutAnnotation []],
     Ok tt).
Proof. reflexivity. Qed.

(** [for (const v of dynArray) {}] *)
Example scenario_for_of :
  let v := [("declarations", 0); ("left", 0); ("body", 0)] in
  lint (resolving [v] [[("right", 0); ("body", 0)]]) false
    [ForOfStatement
       (inl (VariableDeclaration Kconst
               [VariableDeclarator (PIdentifier "v" None) None]))
       (Identifier "dynArray") (BlockStatement [])]
    []
  = ([mkDiagnostic v loopVariableInitialisedToAny []], Ok tt).
Proof. reflexivity. Qed.

(** [f(dynArg1, concreteArg2, dynArg3);] *)
Example scenario_call :
  let call := [("expression", 0); ("body", 0)] in
  lint (resolving [("arguments", 0) :: call; ("arguments", 2) :: call] [])
    false
    [ExpressionStatement
       (CallExpression (Identifier "f")
          [Identifier "dynArg1"; Identifier "concreteArg2";
           Identifier "dynArg3"])]
    []
  = ([argumentReport call 0; argumentReport call 2], Ok tt).
Proof. reflexivity. Qed.

(** [x++;] with [x] of type [any[]], then of type [any]. *)
Example scenario_update :
  let update := [("expression", 0); ("body", 0)] in
  let program :=
    [ExpressionStatement (UpdateExpression "++" (Identifier "x"))] in
  lint (resolving [] [("argument", 0) :: update]) false program []
  = ([], Ok tt)
  /\ lint (resolving [("argument", 0) :: update] []) false program []
     = ([mkDiagnostic update updateExpressionIsAny []], Ok tt).
Proof. split; reflexivity. Qed.

(** ** Further programs *)

(** [function f() { return dyn; }] with [dyn] of type [any]. *)
Lemma return_statement_reported_witness :
  let here := [("body", 0); ("body", 0); ("body", 0)] in
  let oracle := resolving [("argument", 0) :: here] [] in
  let returned := ReturnStatement (Some (Identifier "dyn")) in
  let f := FunctionDeclaration "f" [] [returned] in
  let above := [NStmt (BlockStatement [returned]); NStmt f; NProgram [f]] in
  matches sel_arrowBody (mkCursor (NStmt returned) here above) = false /\
  filter (isReportAt returnAny here)
    (emitted (traverse oracle false here above (stmtTree returned)))
  = [mkDiagnostic here returnAny []].
Proof.
  intros here oracle returned f above.
  split; [reflexivity|].
  apply (return_statement_reported oracle false
           (Some (Identifier "dyn")) above here).
  reflexivity.
Defined.

(** [const [a, , b] = v;] where [a] and [b] resolve to [any]: the walk
    reports [a] and throws at the elision; [b] is not looked at. *)
Lemma pattern_walk_stops_at_an_elision_witness :
  let node :=
    ArrayPattern
      [Some (PIdentifier "a" None); None; Some (PIdentifier "b" None)] None in
  let here := ("id", 0) :: firstDeclarator in
  let oracle := resolving [("elements", 0) :: here; ("elements", 2) :: here] []
  in
  let walk := checkDestructuringPattern oracle here node in
  walkAnswered node = true /\
  (true = hasElision node
   /\ (true = false -> [("elements", 0) :: here] = leaves here node)
   /\ outcome walk = Throw TypeError
   /\ emitted walk = [patternReport (("elements", 0) :: here)]).
Proof.
  intros node here oracle walk.
  split; [reflexivity|].
  exact (pattern_walk_stops_at_an_elision oracle node here eq_refl).
Defined.

(** [const [, x] = v;] with [v] of type [number]. *)
Lemma traversal_aborts_exactly_witness :
  let program :=
    [VariableDeclaration Kconst
       [VariableDeclarator (ArrayPattern [None; Some (PIdentifier "x" None)]
                              None)
          (Some (Identifier "v"))]] in
  let oracle := resolving [] [] in
  existsb unanswerable (programCursors program) = false /\
  outcome (lint oracle false program) = Throw TypeError.
Proof.
  intros program oracle.
  split; [reflexivity|].
  exact (traversal_aborts_exactly oracle false program eq_refl).
Defined.

(** [for (let v of dynArr) {}]: the let-variable report for the loop
    variable. *)
Lemma let_variable_reports_witness :
  let id := PIdentifier "v" None in
  let declaration := VariableDeclaration Klet [VariableDeclarator id None] in
  let loop :=
    ForOfStatement (inl declaration) (Identifier "dynArr") (BlockStatement [])
  in
  let v := [("declarations", 0); ("left", 0); ("body", 0)] in
  let above := [NStmt declaration; NStmt loop; NProgram [loop]] in
  let oracle := resolving [v] [[("right", 0); ("body", 0)]] in
  loopUnanswered (mkCursor (NDeclarator (VariableDeclarator id None)) v above)
  = false /\
  filter (isLetReportAt v)
    (emitted (traverse oracle false v above
                (declaratorTree (VariableDeclarator id None))))
  = [mkDiagnostic v letVariableWithNoInitialAndNoAnnotation
       [("kind", Some "let")]].
Proof.
  intros id declaration loop v above oracle.
  split; [reflexivity|].
  exact (let_variable_reports oracle false id None Klet
           [VariableDeclarator id None] [NStmt loop; NProgram [loop]] v
           eq_refl).
Defined.
